(** * ecef_to_sez.py: ECEF to SEZ conversion, embedded in Rocq

    The script reads six command-line arguments (an ECEF origin and an ECEF
    position, in km), finds the geodetic latitude and longitude of the
    origin by a capped fixed-point iteration, and prints the components of
    the position relative to the origin in the South-East-Zenith frame.

    Python floats are IEEE 754 binary64 numbers.  They are modelled by the
    standard library's executable specification [spec_float] at precision 53
    and maximal exponent 1024, so that sums, products, quotients and square
    roots are the correctly rounded ones, NaN and the infinities are values,
    and concrete runs evaluate inside Rocq.  What Python adds on top of the
    hardware (ZeroDivisionError on a zero divisor, ValueError and
    OverflowError out of [math] and [**]) is modelled by an exception
    monad.  The transcendental functions of the C library are not specified
    bit for bit by any standard: every call that reaches the C library is an
    event of the monad, answered by an arbitrary oracle when a program is
    run. *)

From Stdlib Require Import ZArith Bool List String Lia.
From Stdlib Require Import Floats.SpecFloat.
Import ListNotations.
Local Open Scope Z_scope.

(** ** Binary64 arithmetic *)

Module F64.

Definition prec : Z := 53.
Definition emax : Z := 1024.

Definition float : Type := spec_float.

Definition add : float -> float -> float := SFadd prec emax.
Definition sub : float -> float -> float := SFsub prec emax.
Definition mul : float -> float -> float := SFmul prec emax.
Definition div : float -> float -> float := SFdiv prec emax.
Definition sqrt : float -> float := SFsqrt prec emax.
Definition neg : float -> float := SFopp.
Definition fabs : float -> float := SFabs.

(** Comparisons are the IEEE ones: every comparison with NaN is false, and
    the two zeros are equal. *)
Definition eqb : float -> float -> bool := SFeqb.
Definition ltb : float -> float -> bool := SFltb.
Definition leb : float -> float -> bool := SFleb.

Definition nan : float := S754_nan.
Definition zero : float := S754_zero false.
Definition inf : float := S754_infinity false.

Definition is_nan (x : float) : bool :=
  match x with S754_nan => true | _ => false end.

Definition is_inf (x : float) : bool :=
  match x with S754_infinity _ => true | _ => false end.

Definition is_finite (x : float) : bool :=
  match x with S754_zero _ | S754_finite _ _ _ => true | _ => false end.

(** The sign bit, as [copysign(1., x) == 1.] reads it (NaN carries no sign
    in [spec_float]; the callers below test for NaN first). *)
Definition sign_bit (x : float) : bool :=
  match x with
  | S754_zero s | S754_infinity s | S754_finite s _ _ => s
  | S754_nan => false
  end.

Definition copysign (x y : float) : float :=
  if sign_bit y then neg (fabs x) else fabs x.

(** An integer as a float (correctly rounded; exact below 2^53). *)
Definition of_Z (n : Z) : float := binary_normalize prec emax n 0 false.

(** The float that a decimal literal [m * 10^-k] denotes.  Numerator and
    denominator are exact when both are below 2^53, and the quotient is
    rounded once, so the result is the double nearest to the decimal, which
    is what Python's parser returns for the literal. *)
Definition decimal (m : Z) (k : Z) : float := div (of_Z m) (of_Z (10 ^ k)).

Definition one : float := of_Z 1.
Definition two : float := of_Z 2.

End F64.

Import F64.

(** ** The Python layer *)

(** The exceptions the script can end with.  [SystemExit] is what
    [sys.exit()] raises. *)
Inductive exn : Type :=
| ZeroDivisionError
| ValueError
| OverflowError
| SystemExit.

(** A line written to standard output: a fixed text, or the [repr] of a
    float ([print(x)]). *)
Inductive out_line : Type :=
| Text (s : string)
| Repr (x : float).

(** A call that reaches the C library, with its arguments in C's order. *)
Inductive libm_call : Type :=
| Sin (x : float)
| Cos (x : float)
| Asin (x : float)
| Atan (x : float)
| Atan2 (y x : float)
| Pow (x y : float).

(** Programs: trees of C library calls and printed lines that end in a
    value, in an uncaught exception, or with their loop fuel spent. *)
Inductive py (A : Type) : Type :=
| Ret (a : A)
| Raise (e : exn)
| Libm (c : libm_call) (k : float -> py A)
| Emit (l : out_line) (k : py A)
| OutOfFuel.

Arguments Ret {A} a.
Arguments Raise {A} e.
Arguments Libm {A} c k.
Arguments Emit {A} l k.
Arguments OutOfFuel {A}.

Fixpoint bind {A B : Type} (p : py A) (f : A -> py B) : py B :=
  match p with
  | Ret a => f a
  | Raise e => Raise e
  | Libm c k => Libm c (fun r => bind (k r) f)
  | Emit l k => Emit l (bind k f)
  | OutOfFuel => OutOfFuel
  end.

Declare Scope py_scope.
Delimit Scope py_scope with py.
Notation "x <- p ;; q" := (bind p (fun x => q))
  (at level 100, p at next level, right associativity) : py_scope.
Local Open Scope py_scope.

(** *** Running a program against a C library *)

Definition libm : Type := libm_call -> float.

Inductive result (A : Type) : Type :=
| Returned (a : A)
| Uncaught (e : exn)
| Unfinished.

Arguments Returned {A} a.
Arguments Uncaught {A} e.
Arguments Unfinished {A}.

(** How the program ends. *)
Fixpoint eval {A : Type} (M : libm) (p : py A) : result A :=
  match p with
  | Ret a => Returned a
  | Raise e => Uncaught e
  | Libm c k => eval M (k (M c))
  | Emit _ k => eval M k
  | OutOfFuel => Unfinished
  end.

(** What it has written to standard output by then. *)
Fixpoint output {A : Type} (M : libm) (p : py A) : list out_line :=
  match p with
  | Libm c k => output M (k (M c))
  | Emit l k => l :: output M k
  | _ => []
  end.

(** The number of C library calls made. *)
Fixpoint calls {A : Type} (M : libm) (p : py A) : nat :=
  match p with
  | Libm c k => S (calls M (k (M c)))
  | Emit _ k => calls M k
  | _ => O
  end.

(** The interpreter's exit status: 0 at the end of the script and on
    [sys.exit()] without argument, 1 on any other uncaught exception. *)
Definition exit_status {A : Type} (r : result A) : option Z :=
  match r with
  | Returned _ => Some 0
  | Uncaught SystemExit => Some 0
  | Uncaught _ => Some 1
  | Unfinished => None
  end.

(** *** Float operations as Python performs them *)

(** [a / b]: a zero divisor raises before the division is attempted. *)
Definition truediv (a b : float) : py float :=
  if eqb b zero then Raise ZeroDivisionError else Ret (div a b).

(** [iv ** 2].  CPython settles NaN, the infinities, zero and a base of
    magnitude one itself; every other square is C's [pow] of the magnitude,
    and an infinite result is reported as OverflowError. *)
Definition sq (iv : float) : py float :=
  if is_nan iv then Ret iv
  else if is_inf iv then Ret (fabs iv)
  else if eqb iv zero then Ret zero
  else
    let a := if ltb iv zero then neg iv else iv in
    if eqb a one then Ret one
    else Libm (Pow a two)
           (fun ix => if is_inf ix then Raise OverflowError else Ret ix).

(** *** The C functions behind [math]

    C99 Annex F fixes their value at NaN, at the zeros, at the infinities
    and outside their domain; the library is asked everywhere else. *)

Definition c_sin (x : float) : py float :=
  match x with
  | S754_nan | S754_infinity _ => Ret nan
  | S754_zero _ => Ret x
  | S754_finite _ _ _ => Libm (Sin x) Ret
  end.

Definition c_cos (x : float) : py float :=
  match x with
  | S754_nan | S754_infinity _ => Ret nan
  | S754_zero _ => Ret one
  | S754_finite _ _ _ => Libm (Cos x) Ret
  end.

Definition c_asin (x : float) : py float :=
  match x with
  | S754_nan => Ret nan
  | S754_zero _ => Ret x
  | _ => if ltb one (fabs x) then Ret nan else Libm (Asin x) Ret
  end.

Definition c_atan (x : float) : py float :=
  match x with
  | S754_nan => Ret nan
  | S754_zero _ => Ret x
  | _ => Libm (Atan x) Ret
  end.

Definition c_sqrt (x : float) : py float := Ret (sqrt x).

(** [math.pi], the double nearest to pi. *)
Definition pi : float := decimal 3141592653589793 15.

(** CPython's own [atan2]: it answers whenever an argument is NaN, infinite
    or a zero numerator, and calls C's [atan2] otherwise. *)
Definition m_atan2 (y x : float) : py float :=
  if is_nan x || is_nan y then Ret nan
  else if is_inf y then
    if is_inf x then
      if negb (sign_bit x) then Ret (copysign (mul (decimal 25 2) pi) y)
      else Ret (copysign (mul (decimal 75 2) pi) y)
    else Ret (copysign (mul (decimal 5 1) pi) y)
  else if is_inf x || eqb y zero then
    if negb (sign_bit x) then Ret (copysign zero y)
    else Ret (copysign pi y)
  else Libm (Atan2 y x) Ret.

(** The wrapper of the one-argument [math] functions: a NaN out of a
    number, or an infinity out of a finite number, is a "math domain
    error".  (The wrappers also look at C's [errno]; the functions used
    here leave it alone on the results that pass these two tests.) *)
Definition math_1 (f : float -> py float) (x : float) : py float :=
  r <- f x ;;
  if is_nan r && negb (is_nan x) then Raise ValueError
  else if is_inf r && is_finite x then Raise ValueError
  else Ret r.

(** The wrapper of the two-argument ones: the infinity is a "math range
    error" there. *)
Definition math_2 (f : float -> float -> py float) (x y : float) : py float :=
  r <- f x y ;;
  if is_nan r && negb (is_nan x) && negb (is_nan y) then Raise ValueError
  else if is_inf r && is_finite x && is_finite y then Raise OverflowError
  else Ret r.

Definition math_sin : float -> py float := math_1 c_sin.
Definition math_cos : float -> py float := math_1 c_cos.
Definition math_asin : float -> py float := math_1 c_asin.
Definition math_atan : float -> py float := math_1 c_atan.
Definition math_sqrt : float -> py float := math_1 c_sqrt.
Definition math_atan2 : float -> float -> py float := math_2 m_atan2.

(** A command-line argument, by what [float()] makes of it: the value it
    denotes ("6378.137", "1e3", "nan", "-inf", ...), or a ValueError. *)
Inductive argument : Type :=
| Numeric (x : float)
| NonNumeric (s : string).

Definition float_of (a : argument) : py float :=
  match a with
  | Numeric x => Ret x
  | NonNumeric _ => Raise ValueError
  end.

(** ** The script *)

(** Module-level constants (lines 32-34). *)
Definition R_E_KM : float := decimal 6378137 3.
Definition E_E : float := decimal 81819221456 12.
Definition RAD_TO_DEG : float := div (of_Z 180) pi.

(** The literal [10e-7] of the loop condition. *)
Definition tolerance : float := decimal 10 7.

(** [calc_denom] (lines 37-38). *)
Definition calc_denom (ecc lat_rad : float) : py float :=
  a <- sq ecc ;;
  s <- math_sin lat_rad ;;
  b <- sq s ;;
  math_sqrt (sub one (mul a b)).

Record EcefVector : Type :=
  { x_km : float; y_km : float; z_km : float }.

Record GeodeticPose : Type :=
  { lat_rad : float; lon_rad : float; hae_km : float }.

(** The script stores the zenith component in [z_km], the variable that
    held the target's z before; it is [sez_z_km] here. *)
Record SezVector : Type :=
  { s_km : float; e_km : float; sez_z_km : float }.

(** *** VectorDifferencer (lines 63-65) *)

Definition difference (target origin : EcefVector) : EcefVector :=
  {| x_km := sub (x_km target) (x_km origin);
     y_km := sub (y_km target) (y_km origin);
     z_km := sub (z_km target) (z_km origin) |}.

(** *** GeodeticSolver (lines 68-87) *)

(** The divisor of line 72: [sqrt(o_x_km**2 + o_y_km**2 + o_z_km**2)]. *)
Definition origin_norm (origin : EcefVector) : py float :=
  a <- sq (x_km origin) ;;
  b <- sq (y_km origin) ;;
  c <- sq (z_km origin) ;;
  math_sqrt (add (add a b) c).

(** Line 72.  The numerator is [z_vec_km], the z component of the
    difference vector computed on line 65. *)
Definition initial_latitude (origin : EcefVector) (z_vec_km : float)
  : py float :=
  n <- origin_norm origin ;;
  q <- truediv z_vec_km n ;;
  math_asin q.

(** Line 73. *)
Definition polar_distance (origin : EcefVector) : py float :=
  a <- sq (x_km origin) ;;
  b <- sq (y_km origin) ;;
  math_sqrt (add a b).

(** The variables the loop reads and writes: [lat_rad] (here [lat]),
    [prev_lat_rad], [c_E] and [count]. *)
Record loop_state : Type :=
  { lat : float; prev_lat_rad : float; c_E : float; count : Z }.

(** Lines 72-78: the state on entry. *)
Definition loop_entry (lat0 : float) : loop_state :=
  {| lat := lat0; prev_lat_rad := nan; c_E := nan; count := 0 |}.

(** The condition of the [while] (line 79). *)
Definition loop_test (st : loop_state) : bool :=
  (is_nan (prev_lat_rad st)
   || ltb tolerance (fabs (sub (lat st) (prev_lat_rad st))))
  && (count st <? 5).

(** Its body (lines 80-84). *)
Definition loop_body (o_z_km r_lon_km : float) (st : loop_state)
  : py loop_state :=
  denom <- calc_denom E_E (lat st) ;;
  c <- truediv R_E_KM denom ;;
  e2 <- sq E_E ;;
  s <- math_sin (lat st) ;;
  q <- truediv (add o_z_km (mul (mul c e2) s)) r_lon_km ;;
  l <- math_atan q ;;
  Ret {| lat := l; prev_lat_rad := lat st; c_E := c; count := count st + 1 |}.

Fixpoint while_loop (fuel : nat) (o_z_km r_lon_km : float) (st : loop_state)
  : py loop_state :=
  if loop_test st then
    match fuel with
    | O => OutOfFuel
    | S fuel' =>
        st' <- loop_body o_z_km r_lon_km st ;;
        while_loop fuel' o_z_km r_lon_km st'
    end
  else Ret st.

(** The loop passes its test at most five times. *)
Definition iteration_cap : nat := 5.

Definition solve (origin : EcefVector) (z_vec_km : float) : py GeodeticPose :=
  lon <- math_atan2 (y_km origin) (x_km origin) ;;
  let lon_deg := mul lon RAD_TO_DEG in
  lat0 <- initial_latitude origin z_vec_km ;;
  r_lon_km <- polar_distance origin ;;
  st <- while_loop iteration_cap (z_km origin) r_lon_km (loop_entry lat0) ;;
  c <- math_cos (lat st) ;;
  h <- truediv r_lon_km c ;;
  Ret {| lat_rad := lat st; lon_rad := lon; hae_km := sub h (c_E st) |}.

(** *** SezRotator (lines 90-96) *)

Definition rotate (diff : EcefVector) (pose : GeodeticPose) : py SezVector :=
  let x_vec_km := x_km diff in
  let y_vec_km := y_km diff in
  let z_vec_km := z_km diff in
  let lon := lon_rad pose in
  let lat := lat_rad pose in
  c1 <- math_cos lon ;;
  s1 <- math_sin lon ;;
  s2 <- math_sin lat ;;
  c2 <- math_cos lat ;;
  let s := sub (add (mul x_vec_km c1) (mul (mul y_vec_km s1) s2))
               (mul z_vec_km c2) in
  s3 <- math_sin lon ;;
  c3 <- math_cos lon ;;
  let e := add (mul x_vec_km (neg s3)) (mul y_vec_km c3) in
  c4 <- math_cos lon ;;
  s4 <- math_sin lon ;;
  c5 <- math_cos lat ;;
  s5 <- math_sin lat ;;
  let z := add (mul (add (mul x_vec_km c4) (mul y_vec_km s4)) c5)
               (mul z_vec_km s5) in
  Ret {| s_km := s; e_km := e; sez_z_km := z |}.

(** *** The whole script *)

(** Lines 63-96, once the six arguments are floats. *)
Definition ecef_to_sez (origin target : EcefVector) : py SezVector :=
  let diff := difference target origin in
  pose <- solve origin (z_km diff) ;;
  rotate diff pose.

Definition usage : string :=
  "Usage: python3 ecef_to_sez.py o_x_km o_y_km o_z_km x_km y_km z_km"%string.

(** Lines 49-101.  [argv] is [sys.argv]: the script's name, then the
    arguments.  The NaN that lines 41-46 first store in the six variables
    is overwritten or never read. *)
Definition main (argv : list argument) : py unit :=
  if Nat.eqb (List.length argv) 7 then
    let arg i := nth i argv (NonNumeric EmptyString) in
    o_x_km <- float_of (arg 1%nat) ;;
    o_y_km <- float_of (arg 2%nat) ;;
    o_z_km <- float_of (arg 3%nat) ;;
    x <- float_of (arg 4%nat) ;;
    y <- float_of (arg 5%nat) ;;
    z <- float_of (arg 6%nat) ;;
    v <- ecef_to_sez {| x_km := o_x_km; y_km := o_y_km; z_km := o_z_km |}
                     {| x_km := x; y_km := y; z_km := z |} ;;
    Emit (Repr (s_km v)) (Emit (Repr (e_km v)) (Emit (Repr (sez_z_km v))
      (Ret tt)))
  else
    Emit (Text usage) (Raise SystemExit).

(** ** The specification's formulas *)

(** The initial latitude guess as the specification words it:
    [asin(origin.z_km / |origin|)]. *)
Definition spec_initial_latitude (origin : EcefVector) : py float :=
  n <- origin_norm origin ;;
  q <- truediv (z_km origin) n ;;
  math_asin q.

(** The three SEZ components as the specification prints them, on the four
    trigonometric values of the pose. *)
Definition spec_rotate (diff : EcefVector) (pose : GeodeticPose)
  : py SezVector :=
  cos_lon <- math_cos (lon_rad pose) ;;
  sin_lon <- math_sin (lon_rad pose) ;;
  cos_lat <- math_cos (lat_rad pose) ;;
  sin_lat <- math_sin (lat_rad pose) ;;
  Ret {| s_km := sub (add (mul (x_km diff) cos_lon)
                          (mul (mul (y_km diff) sin_lon) sin_lat))
                     (mul (z_km diff) cos_lat);
         e_km := add (mul (neg (x_km diff)) sin_lon)
                     (mul (y_km diff) cos_lon);
         sez_z_km := add (mul (add (mul (x_km diff) cos_lon)
                                   (mul (y_km diff) sin_lon)) cos_lat)
                         (mul (z_km diff) sin_lat) |}.

(** Three by three matrices, by rows. *)
Definition row : Type := (float * float * float)%type.
Definition matrix : Type := (row * row * row)%type.

Definition dot (r : row) (c : row) : float :=
  let '(r1, r2, r3) := r in
  let '(c1, c2, c3) := c in
  add (add (mul r1 c1) (mul r2 c2)) (mul r3 c3).

Definition column (i : nat) (m : matrix) : row :=
  let '(r1, r2, r3) := m in
  let pick (r : row) :=
    let '(a, b, c) := r in
    match i with O => a | S O => b | _ => c end in
  (pick r1, pick r2, pick r3).

Definition mat_mul (a b : matrix) : matrix :=
  let '(a1, a2, a3) := a in
  let line (r : row) :=
    (dot r (column 0 b), dot r (column 1 b), dot r (column 2 b)) in
  (line a1, line a2, line a3).

Definition mat_vec (a : matrix) (v : EcefVector) : SezVector :=
  let '(a1, a2, a3) := a in
  let c := (x_km v, y_km v, z_km v) in
  {| s_km := dot a1 c; e_km := dot a2 c; sez_z_km := dot a3 c |}.

(** The frame rotation about the Z axis by an angle of cosine [c] and sine
    [s], and the one about the Y axis. *)
Definition R_z (c s : float) : matrix :=
  ((c, s, zero), (neg s, c, zero), (zero, zero, one)).

Definition R_y (c s : float) : matrix :=
  ((c, zero, neg s), (zero, one, zero), (s, zero, c)).

(** [R_SEZ = R_y(90 deg - lat) . R_z(lon)] applied to the difference
    vector; the cosine of the co-latitude is the sine of the latitude and
    its sine is the cosine of the latitude. *)
Definition sez_by_matrices (diff : EcefVector) (pose : GeodeticPose)
  : py SezVector :=
  cos_lon <- math_cos (lon_rad pose) ;;
  sin_lon <- math_sin (lon_rad pose) ;;
  cos_lat <- math_cos (lat_rad pose) ;;
  sin_lat <- math_sin (lat_rad pose) ;;
  Ret (mat_vec (mat_mul (R_y sin_lat cos_lat) (R_z cos_lon sin_lon)) diff).

(** The tolerance as the specification writes it, [1e-6]. *)
Definition spec_tolerance : float := decimal 1 6.

(** ** Vocabulary of the statements *)

Definition is_zero (x : float) : bool := eqb x zero.

Definition zero_vector : EcefVector :=
  {| x_km := zero; y_km := zero; z_km := zero |}.

Definition finite_vector (v : EcefVector) : bool :=
  is_finite (x_km v) && is_finite (y_km v) && is_finite (z_km v).

(** [sys.argv] for six numeric arguments. *)
Definition script_name : argument := NonNumeric "ecef_to_sez.py".

Definition argv_of (origin target : EcefVector) : list argument :=
  [script_name;
   Numeric (x_km origin); Numeric (y_km origin); Numeric (z_km origin);
   Numeric (x_km target); Numeric (y_km target); Numeric (z_km target)].

(** The program ends in an exception of the numeric pipeline, having
    printed nothing. *)
Definition raises {A : Type} (M : libm) (p : py A) : Prop :=
  exists e, eval M p = Uncaught e /\ e <> SystemExit /\ output M p = [].

(** It returns or ends so, having printed nothing either way. *)
Definition quiet {A : Type} (M : libm) (p : py A) : Prop :=
  (exists a, eval M p = Returned a /\ output M p = []) \/ raises M p.

(** A C function returns: it neither raises nor prints. *)
Definition answers (M : libm) (f : float -> py float) : Prop :=
  forall x, exists v, eval M (f x) = Returned v /\ output M (f x) = [].

(** [passes M oz rl n st st']: from [st], the loop goes [n] times through
    its body, every time after a successful test, and is in [st'] then. *)
Inductive passes (M : libm) (o_z_km r_lon_km : float)
  : nat -> loop_state -> loop_state -> Prop :=
| passes_O : forall st, passes M o_z_km r_lon_km O st st
| passes_S : forall n st st' st'',
    loop_test st = true ->
    eval M (loop_body o_z_km r_lon_km st) = Returned st' ->
    passes M o_z_km r_lon_km n st' st'' ->
    passes M o_z_km r_lon_km (S n) st st''.

(** Two successive iterates differ by at most [tol]. *)
Definition close_enough (tol : float) (st : loop_state) : bool :=
  leb (fabs (sub (lat st) (prev_lat_rad st))) tol.

(** The doubles nearest to pi/2 and to pi; both lie below the real
    numbers they round (1.5707963267948966 and 3.141592653589793). *)
Definition half_pi : float := mul (decimal 5 1) pi.

Definition within (bound x : float) : Prop :=
  is_nan x = true \/ leb (fabs x) bound = true.

(** What the statements on ranges ask of the C library: an arctangent that
    is a number lies between the doubles nearest to -pi/2 and pi/2, and a
    two-argument one between those nearest to -pi and pi. *)
Definition arctangents_in_range (M : libm) : Prop :=
  (forall x, within half_pi (M (Atan x))) /\
  (forall y x, within pi (M (Atan2 y x))).

(** And of its sine and cosine: a finite value at a finite angle. *)
Definition trig_finite (M : libm) : Prop :=
  forall x, is_finite x = true ->
            is_finite (M (Sin x)) = true /\ is_finite (M (Cos x)) = true.

(** And of its power: the square of a finite number is not a NaN. *)
Definition squares_are_numbers (M : libm) : Prop :=
  forall x, is_finite x = true -> is_nan (M (Pow x two)) = false.

(** *** A first-order C library

    Small-angle stand-ins for the transcendental functions and the
    correctly rounded square for [pow(x, 2.)].  It is one of the libraries
    the statements quantify over, used to run the script on concrete
    inputs. *)
Definition clamp (bound x : float) : float :=
  if leb (fabs x) bound then x
  else if is_nan x then nan else copysign bound x.

Definition small_angle : libm :=
  fun c =>
    match c with
    | Sin x => clamp one x
    | Cos _ => one
    | Asin x => x
    | Atan x => clamp half_pi x
    | Atan2 y x => clamp pi (div y x)
    | Pow x _ => mul x x
    end.

(** *** Inputs of the examples *)

Definition on_x_axis : EcefVector :=
  {| x_km := one; y_km := zero; z_km := zero |}.

Definition two_above_x_axis : EcefVector :=
  {| x_km := one; y_km := zero; z_km := two |}.

Definition nan_vector : EcefVector :=
  {| x_km := nan; y_km := nan; z_km := nan |}.

Definition nan_pose : GeodeticPose :=
  {| lat_rad := nan; lon_rad := nan; hae_km := nan |}.

Definition equator_pose : GeodeticPose :=
  {| lat_rad := zero; lon_rad := zero; hae_km := zero |}.

(** The ground station of the specification's known-value scenario and a
    point one kilometre above it along Z. *)
Definition station : EcefVector :=
  {| x_km := R_E_KM; y_km := zero; z_km := zero |}.

Definition north_of_station : EcefVector :=
  {| x_km := R_E_KM; y_km := zero; z_km := one |}.

(** ** Facts of binary64 arithmetic *)

Section FloatFacts.

Lemma sub_diag (x : float) : is_finite x = true -> sub x x = zero.
Proof.
  destruct x as [s | s | | s m e]; simpl; try discriminate; intros _.
  - now destruct s.
  - unfold sub, SFsub. now rewrite Z.sub_diag.
Qed.

Lemma mul_neg_swap (x y : float) : mul x (neg y) = mul (neg x) y.
Proof.
  destruct x as [sx | sx | | sx mx ex], y as [sy | sy | | sy my ey];
    try reflexivity; destruct sx, sy; reflexivity.
Qed.

Lemma is_zero_spec (x : float) :
  is_zero x = true <-> exists s, x = S754_zero s.
Proof.
  split.
  - destruct x as [s | s | | s m e].
    + now exists s.
    + now destruct s.
    + discriminate.
    + now destruct s.
  - now intros [s ->].
Qed.

Lemma is_finite_neg (x : float) : is_finite (neg x) = is_finite x.
Proof. now destruct x. Qed.

Lemma mul_zero_l (x y : float) :
  is_zero x = true -> is_finite y = true -> is_zero (mul x y) = true.
Proof.
  intros [s ->]%is_zero_spec.
  destruct y as [sy | sy | | sy my ey]; try discriminate; reflexivity.
Qed.

Lemma add_zeros (x y : float) :
  is_zero x = true -> is_zero y = true -> is_zero (add x y) = true.
Proof.
  intros [s ->]%is_zero_spec [t ->]%is_zero_spec. now destruct s, t.
Qed.

Lemma sub_zeros (x y : float) :
  is_zero x = true -> is_zero y = true -> is_zero (sub x y) = true.
Proof.
  intros [s ->]%is_zero_spec [t ->]%is_zero_spec. now destruct s, t.
Qed.

(** Swapping the operands of a comparison reverses its answer. *)
Lemma SFcompare_swap (x y : float) (c : comparison) :
  SFcompare x y = Some c -> SFcompare y x = Some (CompOpp c).
Proof.
  destruct x as [sx | sx | | sx mx ex], y as [sy | sy | | sy my ey];
    simpl; try discriminate;
    try (intros [= <-]; reflexivity);
    try (destruct sx; intros [= <-]; reflexivity);
    try (destruct sy; intros [= <-]; reflexivity);
    try (destruct sx, sy; intros [= <-]; reflexivity).
  intros [= <-]. f_equal.
  pose proof (Pos.compare_cont_antisym mx my Eq) as Hm. simpl in Hm.
  rewrite (Z.compare_antisym ex ey).
  destruct sx, sy, (ex ?= ey); simpl; try reflexivity;
    rewrite ?CompOpp_involutive; now rewrite <- ?Hm, ?CompOpp_involutive.
Qed.

Lemma leb_not_ltb (x y : float) : leb x y = true -> ltb y x = false.
Proof.
  unfold leb, ltb, SFleb, SFltb.
  destruct (SFcompare x y) as [c |] eqn:E; try discriminate.
  rewrite (SFcompare_swap _ _ _ E). now destruct c.
Qed.

Lemma not_ltb_leb (x y : float) :
  ltb y x = false -> is_nan x = false -> is_nan y = false -> leb x y = true.
Proof.
  unfold leb, ltb, SFleb, SFltb. intros H Hx Hy.
  destruct (SFcompare x y) as [c |] eqn:E.
  - rewrite (SFcompare_swap _ _ _ E) in H. now destruct c.
  - destruct x, y; simpl in *; discriminate.
Qed.

Lemma leb_not_nan (x y : float) : leb x y = true -> is_nan x = false.
Proof. now destruct x. Qed.

Lemma fabs_nan (x : float) : is_nan (fabs x) = is_nan x.
Proof. now destruct x. Qed.

Lemma sub_nan_r (x y : float) : is_nan y = true -> is_nan (sub x y) = true.
Proof. destruct y; try discriminate. now destruct x. Qed.

Lemma fabs_copysign (x y : float) : fabs (copysign x y) = fabs x.
Proof. unfold copysign. destruct (sign_bit y); now destruct x. Qed.

(** The literal [10e-7] is the double that [1e-6] denotes. *)
Lemma tolerance_is_1e_6 : tolerance = spec_tolerance.
Proof. vm_compute. reflexivity. Qed.

(** The constants of the script are doubles, in canonical form. *)
Lemma constants_are_doubles :
  forallb (valid_binary prec emax)
          [R_E_KM; E_E; RAD_TO_DEG; tolerance; pi; half_pi; one; two]
  = true.
Proof. vm_compute. reflexivity. Qed.

End FloatFacts.

(** ** Facts of the monad *)

Section MonadFacts.

Variable M : libm.

Lemma eval_bind {A B : Type} (p : py A) (f : A -> py B) :
  eval M (bind p f) =
  match eval M p with
  | Returned a => eval M (f a)
  | Uncaught e => Uncaught e
  | Unfinished => Unfinished
  end.
Proof. induction p as [a | e | c k IH | l k IH |]; simpl; auto. Qed.

Lemma output_bind {A B : Type} (p : py A) (f : A -> py B) :
  output M (bind p f) =
  (output M p ++
   match eval M p with Returned a => output M (f a) | _ => [] end)%list.
Proof.
  induction p as [a | e | c k IH | l k IH |]; simpl; auto.
  now rewrite IH.
Qed.

Lemma quiet_ret {A : Type} (a : A) : quiet M (Ret a).
Proof. left. now exists a. Qed.

Lemma quiet_bind {A B : Type} (p : py A) (f : A -> py B) :
  quiet M p -> (forall a, quiet M (f a)) -> quiet M (bind p f).
Proof.
  intros [(a & E & O) | (e & E & Ne & O)] Hf.
  - destruct (Hf a) as [(b & Eb & Ob) | (e & Eb & Ne & Ob)].
    + left. exists b. now rewrite eval_bind, output_bind, E, O, Eb, Ob.
    + right. exists e. now rewrite eval_bind, output_bind, E, O, Eb, Ob.
  - right. exists e. now rewrite eval_bind, output_bind, E, O.
Qed.

Lemma raises_bind {A B : Type} (p : py A) (f : A -> py B) :
  quiet M p -> (forall a, raises M (f a)) -> raises M (bind p f).
Proof.
  intros [(a & E & O) | (e & E & Ne & O)] Hf.
  - destruct (Hf a) as (e & Eb & Ne & Ob).
    exists e. now rewrite eval_bind, output_bind, E, O, Eb, Ob.
  - exists e. now rewrite eval_bind, output_bind, E, O.
Qed.

Lemma quiet_returned_silent {A : Type} (p : py A) (a : A) :
  quiet M p -> eval M p = Returned a -> output M p = [].
Proof.
  intros [(b & _ & O) | (e & E & _)] H; [exact O | congruence].
Qed.

Lemma raises_returned_bind {A B : Type} (p : py A) (f : A -> py B) (a : A) :
  eval M p = Returned a -> output M p = [] -> raises M (f a) ->
  raises M (bind p f).
Proof.
  intros E O (e & Eb & Ne & Ob). exists e.
  now rewrite eval_bind, output_bind, E, O, Eb, Ob.
Qed.

Lemma quiet_if {A : Type} (b : bool) (p q : py A) :
  quiet M p -> quiet M q -> quiet M (if b then p else q).
Proof. now destruct b. Qed.

Lemma quiet_raise {A : Type} (e : exn) :
  e <> SystemExit -> quiet M (@Raise A e).
Proof. right. now exists e. Qed.

End MonadFacts.

(** ** How the Python operations end *)

Section Outcomes.

Variable M : libm.

Lemma eval_bind_returned {A B : Type} (p : py A) (f : A -> py B) (b : B) :
  eval M (bind p f) = Returned b ->
  exists a, eval M p = Returned a /\ eval M (f a) = Returned b.
Proof.
  rewrite eval_bind. destruct (eval M p) as [a | e |]; try discriminate.
  intros H. now exists a.
Qed.

Lemma raises_bind_l {A B : Type} (p : py A) (f : A -> py B) :
  raises M p -> raises M (bind p f).
Proof.
  intros (e & E & Ne & O). exists e.
  now rewrite eval_bind, output_bind, E, O.
Qed.

Lemma quiet_libm {A : Type} (c : libm_call) (k : float -> py A) :
  quiet M (k (M c)) -> quiet M (Libm c k).
Proof. intros H. exact H. Qed.

Lemma quiet_truediv (a b : float) : quiet M (truediv a b).
Proof.
  unfold truediv. apply quiet_if; [apply quiet_raise; discriminate |].
  apply quiet_ret.
Qed.

Lemma truediv_by_zero (a b : float) :
  is_zero b = true -> truediv a b = Raise ZeroDivisionError.
Proof. unfold truediv, is_zero. now intros ->. Qed.

Lemma quiet_sq (x : float) : quiet M (sq x).
Proof.
  unfold sq. repeat (apply quiet_if; [apply quiet_ret |]).
  apply quiet_libm, quiet_if; [apply quiet_raise; discriminate |].
  apply quiet_ret.
Qed.

Lemma answers_c_sin : answers M c_sin.
Proof. intros [s | s | | s m e]; eexists; split; reflexivity. Qed.

Lemma answers_c_cos : answers M c_cos.
Proof. intros [s | s | | s m e]; eexists; split; reflexivity. Qed.

Lemma answers_c_asin : answers M c_asin.
Proof.
  intros [s | s | | s m e]; simpl; try (eexists; split; reflexivity);
    match goal with |- context [if ?b then _ else _] => destruct b end;
    eexists; split; reflexivity.
Qed.

Lemma answers_c_atan : answers M c_atan.
Proof. intros [s | s | | s m e]; eexists; split; reflexivity. Qed.

Lemma answers_c_sqrt : answers M c_sqrt.
Proof. intros x; eexists; split; reflexivity. Qed.

(** A one-argument [math] function returns a float or raises ValueError;
    what it returns is the C function's answer, which is then neither a NaN
    made out of a number nor an infinity made out of a finite number. *)
Lemma math_1_outcome (f : float -> py float) (x : float) :
  answers M f ->
  (exists v, eval M (f x) = Returned v /\
             eval M (math_1 f x) = Returned v /\
             (is_nan v = true -> is_nan x = true) /\
             (is_finite x = true -> is_finite v = true)) \/
  eval M (math_1 f x) = Uncaught ValueError.
Proof.
  intros Hf. destruct (Hf x) as (v & E & _).
  unfold math_1. rewrite eval_bind, E.
  destruct (is_nan v && negb (is_nan x)) eqn:Hn; [now right |].
  destruct (is_inf v && is_finite x) eqn:Hi; [now right |].
  left. exists v. repeat split; trivial.
  - intros Hv. rewrite Hv in Hn. now destruct (is_nan x).
  - intros Hx. rewrite Hx, andb_true_r in Hi.
    destruct v; try discriminate; try reflexivity.
    rewrite andb_false_iff in Hn. destruct Hn as [Hn | Hn];
      [discriminate | now destruct x].
Qed.

Lemma quiet_math_1 (f : float -> py float) (x : float) :
  answers M f -> quiet M (math_1 f x).
Proof.
  intros Hf. destruct (Hf x) as (v & E & O).
  unfold math_1. apply quiet_bind.
  - left. now exists v.
  - intros r. repeat (apply quiet_if; [apply quiet_raise; discriminate |]).
    apply quiet_ret.
Qed.

Lemma quiet_m_atan2 (y x : float) : quiet M (m_atan2 y x).
Proof.
  unfold m_atan2.
  repeat (apply quiet_if; try apply quiet_ret). now apply quiet_libm, quiet_ret.
Qed.

Lemma quiet_math_atan2 (y x : float) : quiet M (math_atan2 y x).
Proof.
  unfold math_atan2, math_2. apply quiet_bind; [apply quiet_m_atan2 |].
  intros r. repeat (apply quiet_if; [apply quiet_raise; discriminate |]).
  apply quiet_ret.
Qed.

Lemma quiet_calc_denom (ecc l : float) : quiet M (calc_denom ecc l).
Proof.
  unfold calc_denom.
  apply quiet_bind; [apply quiet_sq | intros a].
  apply quiet_bind; [apply quiet_math_1, answers_c_sin | intros s].
  apply quiet_bind; [apply quiet_sq | intros b].
  apply quiet_math_1, answers_c_sqrt.
Qed.

Lemma quiet_origin_norm (o : EcefVector) : quiet M (origin_norm o).
Proof.
  unfold origin_norm.
  do 3 (apply quiet_bind; [apply quiet_sq | intros ?]).
  apply quiet_math_1, answers_c_sqrt.
Qed.

Lemma quiet_polar_distance (o : EcefVector) : quiet M (polar_distance o).
Proof.
  unfold polar_distance.
  do 2 (apply quiet_bind; [apply quiet_sq | intros ?]).
  apply quiet_math_1, answers_c_sqrt.
Qed.

Lemma quiet_initial_latitude (o : EcefVector) (zv : float) :
  quiet M (initial_latitude o zv).
Proof.
  unfold initial_latitude.
  apply quiet_bind; [apply quiet_origin_norm | intros n].
  apply quiet_bind; [apply quiet_truediv | intros q].
  apply quiet_math_1, answers_c_asin.
Qed.

(** A zero norm of the origin stops line 72 at its division. *)
Lemma initial_latitude_at_centre (o : EcefVector) (zv n : float) :
  eval M (origin_norm o) = Returned n -> is_zero n = true ->
  raises M (initial_latitude o zv).
Proof.
  intros En Hz. unfold initial_latitude.
  apply raises_returned_bind with (a := n); trivial.
  - exact (quiet_returned_silent M _ n (quiet_origin_norm o) En).
  - rewrite (truediv_by_zero _ _ Hz).
    exists ZeroDivisionError. repeat split. discriminate.
Qed.

Lemma quiet_loop_body (oz rl : float) (st : loop_state) :
  quiet M (loop_body oz rl st).
Proof.
  unfold loop_body.
  apply quiet_bind; [apply quiet_calc_denom | intros denom].
  apply quiet_bind; [apply quiet_truediv | intros c].
  apply quiet_bind; [apply quiet_sq | intros e2].
  apply quiet_bind; [apply quiet_math_1, answers_c_sin | intros s].
  apply quiet_bind; [apply quiet_truediv | intros q].
  apply quiet_bind; [apply quiet_math_1, answers_c_atan | intros l].
  apply quiet_ret.
Qed.

(** With no distance to the polar axis, the body fails at the latest on the
    division of line 83. *)
Lemma loop_body_on_axis (oz rl : float) (st : loop_state) :
  is_zero rl = true -> raises M (loop_body oz rl st).
Proof.
  intros Hz. unfold loop_body.
  apply raises_bind; [apply quiet_calc_denom | intros denom].
  apply raises_bind; [apply quiet_truediv | intros c].
  apply raises_bind; [apply quiet_sq | intros e2].
  apply raises_bind; [apply quiet_math_1, answers_c_sin | intros s].
  rewrite (truediv_by_zero _ _ Hz).
  exists ZeroDivisionError. repeat split. discriminate.
Qed.

Lemma loop_body_returned (oz rl : float) (st st' : loop_state) :
  eval M (loop_body oz rl st) = Returned st' ->
  count st' = count st + 1 /\ prev_lat_rad st' = lat st /\
  exists q, eval M (math_atan q) = Returned (lat st').
Proof.
  unfold loop_body. intros H.
  apply eval_bind_returned in H as (denom & _ & H).
  apply eval_bind_returned in H as (c & _ & H).
  apply eval_bind_returned in H as (e2 & _ & H).
  apply eval_bind_returned in H as (s & _ & H).
  apply eval_bind_returned in H as (q & _ & H).
  apply eval_bind_returned in H as (l & Hl & H).
  simpl in H. injection H as <-. simpl. repeat split. now exists q.
Qed.

End Outcomes.

(** ** VectorDifferencer and SezRotator *)

Section Rotation.

Variable M : libm.

Lemma math_trig_outcome (f : float -> py float) (x : float) :
  answers M f ->
  (exists v, eval M (math_1 f x) = Returned v) \/
  eval M (math_1 f x) = Uncaught ValueError.
Proof.
  intros Hf. destruct (math_1_outcome M f x Hf) as [(v & _ & E & _) | E].
  - left. now exists v.
  - now right.
Qed.

Lemma math_sin_finite (x : float) :
  trig_finite M -> is_finite x = true ->
  exists v, eval M (math_sin x) = Returned v /\ is_finite v = true.
Proof.
  intros HM Hx.
  destruct (math_1_outcome M c_sin x (answers_c_sin M))
    as [(v & _ & E & _ & Hv) | E].
  - exists v. split; [exact E | now apply Hv].
  - exfalso. destruct x as [s | s | | s m e]; try discriminate.
    destruct (HM (S754_finite s m e) eq_refl) as [Hs _].
    unfold math_sin, math_1 in E. simpl in E.
    destruct (M (Sin (S754_finite s m e))); discriminate.
Qed.

Lemma math_cos_finite (x : float) :
  trig_finite M -> is_finite x = true ->
  exists v, eval M (math_cos x) = Returned v /\ is_finite v = true.
Proof.
  intros HM Hx.
  destruct (math_1_outcome M c_cos x (answers_c_cos M))
    as [(v & _ & E & _ & Hv) | E].
  - exists v. split; [exact E | now apply Hv].
  - exfalso. destruct x as [s | s | | s m e]; try discriminate.
    destruct (HM (S754_finite s m e) eq_refl) as [_ Hc].
    unfold math_cos, math_1 in E. simpl in E.
    destruct (M (Cos (S754_finite s m e))); discriminate.
Qed.

End Rotation.

(** C7.  For every origin whose three components are finite,
    VectorDifferencer.difference(origin, origin) is the zero vector: each
    component of target - origin is exactly 0.0 when the target is the
    origin. *)
Theorem difference_self_is_zero (origin : EcefVector) :
  finite_vector origin = true ->
  difference origin origin = zero_vector.
Proof.
  unfold finite_vector. intros H.
  apply andb_prop in H as [H Hz]. apply andb_prop in H as [Hx Hy].
  unfold difference, zero_vector. now rewrite !sub_diag.
Qed.

Lemma difference_self_at_station :
  finite_vector station = true /\ difference station station = zero_vector.
Proof.
  split; [reflexivity | apply (difference_self_is_zero station); reflexivity].
Defined.

(** C2.  For every difference vector and pose, and whatever the C library
    answers, SezRotator.rotate ends as the specification's three formulas
    do: with s_km = diff.x*cos(lon) + diff.y*sin(lon)*sin(lat) -
    diff.z*cos(lat), e_km = -diff.x*sin(lon) + diff.y*cos(lon) and z_km =
    (diff.x*cos(lon) + diff.y*sin(lon))*cos(lat) + diff.z*sin(lat), or with
    the same exception. *)
Theorem rotate_matches_formulas
  (M : libm) (diff : EcefVector) (pose : GeodeticPose) :
  eval M (rotate diff pose) = eval M (spec_rotate diff pose).
Proof.
  unfold rotate, spec_rotate. cbv zeta.
  destruct (math_trig_outcome M c_cos (lon_rad pose) (answers_c_cos M))
    as [[cl Ecl] | Ecl];
  destruct (math_trig_outcome M c_sin (lon_rad pose) (answers_c_sin M))
    as [[sl Esl] | Esl];
  destruct (math_trig_outcome M c_sin (lat_rad pose) (answers_c_sin M))
    as [[sp Esp] | Esp];
  destruct (math_trig_outcome M c_cos (lat_rad pose) (answers_c_cos M))
    as [[cp Ecp] | Ecp];
  fold math_cos in Ecl, Ecp; fold math_sin in Esl, Esp;
  repeat (rewrite eval_bind;
          rewrite ?Ecl, ?Esl, ?Esp, ?Ecp; cbv beta iota);
  try reflexivity.
  simpl. now rewrite mul_neg_swap.
Qed.

(** C8.  For every pose whose latitude and longitude are finite, and a C
    library whose sine and cosine are finite at finite angles,
    SezRotator.rotate returns on a zero difference vector (each component
    a zero of either sign), and what it returns is a zero SEZ vector:
    s = e = z = 0. *)
Theorem rotate_zero_is_zero
  (M : libm) (diff : EcefVector) (pose : GeodeticPose) :
  trig_finite M ->
  is_zero (x_km diff) = true ->
  is_zero (y_km diff) = true ->
  is_zero (z_km diff) = true ->
  is_finite (lat_rad pose) = true ->
  is_finite (lon_rad pose) = true ->
  exists v, eval M (rotate diff pose) = Returned v /\
            is_zero (s_km v) = true /\
            is_zero (e_km v) = true /\
            is_zero (sez_z_km v) = true.
Proof.
  intros HM Zx Zy Zz Hlat Hlon.
  destruct (math_cos_finite M _ HM Hlon) as (cl & Ecl & Fcl).
  destruct (math_sin_finite M _ HM Hlon) as (sl & Esl & Fsl).
  destruct (math_sin_finite M _ HM Hlat) as (sp & Esp & Fsp).
  destruct (math_cos_finite M _ HM Hlat) as (cp & Ecp & Fcp).
  unfold rotate. cbv zeta.
  repeat (rewrite eval_bind;
          rewrite ?Ecl, ?Esl, ?Esp, ?Ecp; cbv beta iota).
  eexists. split; [reflexivity |].
  cbn [s_km e_km sez_z_km].
  repeat split.
  - apply sub_zeros; [apply add_zeros |]; try now apply mul_zero_l.
    apply mul_zero_l; trivial. now apply mul_zero_l.
  - apply add_zeros; apply mul_zero_l; trivial.
    now rewrite is_finite_neg.
  - apply add_zeros; [| now apply mul_zero_l].
    apply mul_zero_l; trivial. apply add_zeros; now apply mul_zero_l.
Qed.

Lemma small_angle_trig_finite : trig_finite small_angle.
Proof.
  intros x Hx. split; [| reflexivity].
  simpl. unfold clamp.
  destruct (leb (fabs x) one); [exact Hx |].
  destruct x as [s | s | | s m e]; try discriminate; now destruct s.
Defined.

Lemma rotate_zero_at_a_pose :
  trig_finite small_angle /\
  is_zero (x_km zero_vector) = true /\
  is_zero (y_km zero_vector) = true /\
  is_zero (z_km zero_vector) = true /\
  is_finite one = true /\
  is_finite (neg two) = true /\
  exists v,
    eval small_angle
      (rotate zero_vector
         {| lat_rad := one; lon_rad := neg two; hae_km := zero |})
    = Returned v /\
    is_zero (s_km v) = true /\
    is_zero (e_km v) = true /\
    is_zero (sez_z_km v) = true.
Proof.
  split; [exact small_angle_trig_finite |].
  do 5 (split; [reflexivity |]).
  apply (rotate_zero_is_zero small_angle zero_vector
           {| lat_rad := one; lon_rad := neg two; hae_km := zero |}
           small_angle_trig_finite); reflexivity.
Defined.

(** ** The command line *)

(** C4.  For every invocation whose argument count is not exactly six
    (sys.argv, which starts with the script's name, is not seven long),
    the program is: print the usage message, then sys.exit().  So it
    writes that one line and nothing else to standard output, the line has
    no line break in it, no call of the numeric pipeline reaches the C
    library, and the exit status is 0. *)
Theorem usage_on_wrong_argument_count (argv : list argument) :
  List.length argv <> 7%nat ->
  main argv = Emit (Text usage) (Raise SystemExit) /\
  existsb (Ascii.eqb (Ascii.ascii_of_nat 10)) (list_ascii_of_string usage)
  = false /\
  forall M : libm,
    output M (main argv) = [Text usage] /\
    calls M (main argv) = 0%nat /\
    exit_status (eval M (main argv)) = Some 0.
Proof.
  intros H.
  assert (E : main argv = Emit (Text usage) (Raise SystemExit)).
  { unfold main. now apply Nat.eqb_neq in H as ->. }
  rewrite E. repeat split.
Qed.

Lemma usage_on_five_arguments :
  List.length [script_name; Numeric one; Numeric one; Numeric one;
               Numeric one; Numeric one] <> 7%nat /\
  (main [script_name; Numeric one; Numeric one; Numeric one;
         Numeric one; Numeric one]
   = Emit (Text usage) (Raise SystemExit) /\
   existsb (Ascii.eqb (Ascii.ascii_of_nat 10)) (list_ascii_of_string usage)
   = false /\
   forall M : libm,
     output M (main [script_name; Numeric one; Numeric one; Numeric one;
                     Numeric one; Numeric one]) = [Text usage] /\
     calls M (main [script_name; Numeric one; Numeric one; Numeric one;
                    Numeric one; Numeric one]) = 0%nat /\
     exit_status (eval M (main [script_name; Numeric one; Numeric one;
                                Numeric one; Numeric one; Numeric one]))
     = Some 0).
Proof.
  split; [discriminate |].
  apply (usage_on_wrong_argument_count
           [script_name; Numeric one; Numeric one; Numeric one;
            Numeric one; Numeric one]).
  discriminate.
Defined.

(** With seven arguments the usage message is printed as well. *)
Lemma usage_on_seven_arguments :
  main (argv_of station north_of_station ++ [Numeric one])
  = Emit (Text usage) (Raise SystemExit).
Proof. reflexivity. Qed.

(** ** The initial latitude guess *)

(** C10.  There are six finite numeric arguments, with an origin off the
    polar axis and away from the centre, on which the program ends in
    ValueError, the "math domain error" of the initial asin, before any
    output and before any call of the C library: the quotient handed to
    asin is the z component of target minus origin over the norm of the
    origin, here 2/1. *)
Theorem domain_error_in_initial_asin :
  exists origin target : EcefVector,
    finite_vector origin = true /\
    finite_vector target = true /\
    main (argv_of origin target) = Raise ValueError /\
    origin_norm origin = Ret one /\
    truediv (z_km (difference target origin)) one = Ret two /\
    math_asin two = Raise ValueError /\
    initial_latitude origin (z_km (difference target origin))
    = Raise ValueError.
Proof.
  exists on_x_axis, two_above_x_axis. repeat split.
Qed.

(** C1, on the code.  With the origin (1, 0, 0), the guess of line 72 is
    0.0 when the target is the origin itself and a ValueError when the
    target is (1, 0, 2): it is the arcsine of the difference's z component
    over the norm of the origin, and depends on the target.  The formula of
    the specification, asin(origin.z_km / |origin|), gives 0.0 for this
    origin. *)
Theorem initial_latitude_reads_the_target :
  initial_latitude on_x_axis (z_km (difference on_x_axis on_x_axis))
  = Ret zero /\
  initial_latitude on_x_axis (z_km (difference two_above_x_axis on_x_axis))
  = Raise ValueError /\
  spec_initial_latitude on_x_axis = Ret zero.
Proof. repeat split. Qed.

(** C3, on the code.  On the equator at the prime meridian (latitude and
    longitude 0.0) the ECEF X axis is the zenith.  The matrix product
    R_y(90 deg - lat) . R_z(lon) sends the difference vector (1, 0, 0) to
    (s, e, z) = (0, 0, 1); lines 90-96 return (1, 0, 1), because the first
    term of s_km lacks the factor sin(lat). *)
Theorem rotate_differs_from_matrix_product :
  sez_by_matrices on_x_axis equator_pose
  = Ret {| s_km := zero; e_km := zero; sez_z_km := one |} /\
  rotate on_x_axis equator_pose
  = Ret {| s_km := one; e_km := zero; sez_z_km := one |}.
Proof. split; reflexivity. Qed.

(** ** Degenerate origins *)

Lemma main_on_numeric_arguments (origin target : EcefVector) :
  main (argv_of origin target)
  = (v <- ecef_to_sez origin target ;;
     Emit (Repr (s_km v)) (Emit (Repr (e_km v)) (Emit (Repr (sez_z_km v))
       (Ret tt)))).
Proof. destruct origin, target. reflexivity. Qed.

Lemma while_loop_entry (fuel : nat) (oz rl lat0 : float) :
  while_loop (S fuel) oz rl (loop_entry lat0)
  = (st' <- loop_body oz rl (loop_entry lat0) ;; while_loop fuel oz rl st').
Proof. reflexivity. Qed.

Lemma polar_distance_on_axis (sx sy : bool) (oz : float) :
  polar_distance {| x_km := S754_zero sx; y_km := S754_zero sy; z_km := oz |}
  = Ret zero.
Proof. now destruct sx, sy. Qed.

Section Degenerate.

Variable M : libm.
Variables origin target : EcefVector.

Lemma main_raises_with_solve :
  raises M (solve origin (z_km (difference target origin))) ->
  raises M (main (argv_of origin target)).
Proof.
  intros H. rewrite main_on_numeric_arguments.
  apply raises_bind_l. unfold ecef_to_sez. cbv zeta.
  now apply raises_bind_l.
Qed.

Lemma solve_at_centre (zv n : float) :
  eval M (origin_norm origin) = Returned n -> is_zero n = true ->
  raises M (solve origin zv).
Proof.
  intros En Hz. unfold solve. cbv zeta.
  apply raises_bind; [apply quiet_math_atan2 | intros lon].
  apply raises_bind_l. exact (initial_latitude_at_centre M _ _ _ En Hz).
Qed.

Lemma solve_on_axis (zv r : float) :
  eval M (polar_distance origin) = Returned r -> is_zero r = true ->
  raises M (solve origin zv).
Proof.
  intros Er Hz. unfold solve. cbv zeta.
  apply raises_bind; [apply quiet_math_atan2 | intros lon].
  apply raises_bind; [apply quiet_initial_latitude | intros lat0].
  apply raises_returned_bind with (a := r); trivial.
  - exact (quiet_returned_silent M _ r (quiet_polar_distance M origin) Er).
  - apply raises_bind_l. unfold iteration_cap. rewrite while_loop_entry.
    apply raises_bind_l. now apply loop_body_on_axis.
Qed.

End Degenerate.

(** C5, as the code has it.  With the origin at the centre of the Earth
    (o_x, o_y and o_z each a zero) the program is a ZeroDivisionError,
    raised by the division of line 72, whatever the target.  More
    generally, whatever the C library answers: when the norm of the origin
    comes out as zero, and when r_lon_km, its distance to the polar axis,
    comes out as zero (as it does when o_x and o_y are zeros), the program
    ends in an uncaught exception of the numeric pipeline.  Nothing is
    printed in any of these cases. *)
Theorem degenerate_origins_raise :
  (forall (sx sy sz : bool) (target : EcefVector),
     main (argv_of {| x_km := S754_zero sx; y_km := S754_zero sy;
                      z_km := S754_zero sz |} target)
     = Raise ZeroDivisionError) /\
  (forall (M : libm) (origin target : EcefVector) (n : float),
     eval M (origin_norm origin) = Returned n -> is_zero n = true ->
     raises M (main (argv_of origin target))) /\
  (forall (M : libm) (origin target : EcefVector) (r : float),
     eval M (polar_distance origin) = Returned r -> is_zero r = true ->
     raises M (main (argv_of origin target))) /\
  (forall (sx sy : bool) (o_z : float),
     polar_distance {| x_km := S754_zero sx; y_km := S754_zero sy;
                       z_km := o_z |}
     = Ret zero).
Proof.
  split; [| split; [| split]].
  - intros sx sy sz [x y z]. now destruct sx, sy, sz.
  - intros M origin target n En Hz.
    apply main_raises_with_solve. exact (solve_at_centre M _ _ _ En Hz).
  - intros M origin target r Er Hz.
    apply main_raises_with_solve. exact (solve_on_axis M _ _ _ Er Hz).
  - apply polar_distance_on_axis.
Qed.

Lemma raises_at_centre_and_pole :
  raises small_angle (main (argv_of zero_vector on_x_axis)) /\
  raises small_angle
    (main (argv_of {| x_km := zero; y_km := zero; z_km := one |}
                   {| x_km := zero; y_km := zero; z_km := one |})).
Proof.
  destruct degenerate_origins_raise as (_ & Hcentre & Haxis & _).
  split.
  - apply (Hcentre small_angle zero_vector on_x_axis zero); reflexivity.
  - apply (Haxis small_angle
             {| x_km := zero; y_km := zero; z_km := one |}
             {| x_km := zero; y_km := zero; z_km := one |} zero);
      reflexivity.
Defined.

(** C5 fails on the code: with the origin at the centre the program is a
    ZeroDivisionError and prints nothing, and with the origin at the pole
    (0, 0, 1), which is also the target, it ends in ZeroDivisionError on
    the first-order C library. *)
Lemma zero_division_at_centre_and_pole :
  main (argv_of zero_vector on_x_axis) = Raise ZeroDivisionError /\
  eval small_angle
    (main (argv_of {| x_km := zero; y_km := zero; z_km := one |}
                   {| x_km := zero; y_km := zero; z_km := one |}))
  = Uncaught ZeroDivisionError /\
  output small_angle
    (main (argv_of {| x_km := zero; y_km := zero; z_km := one |}
                   {| x_km := zero; y_km := zero; z_km := one |}))
  = [].
Proof. repeat split; vm_compute; reflexivity. Qed.

(** ** The latitude loop *)

Section Loop.

Variable M : libm.
Variables o_z_km r_lon_km : float.

Local Abbreviation body := (loop_body o_z_km r_lon_km).
Local Abbreviation loop fuel := (while_loop fuel o_z_km r_lon_km).
Local Abbreviation reaches := (passes M o_z_km r_lon_km).

Lemma loop_test_entry (lat0 : float) : loop_test (loop_entry lat0) = true.
Proof. reflexivity. Qed.

Lemma loop_test_count (st : loop_state) :
  loop_test st = true -> count st < 5.
Proof.
  unfold loop_test. intros [_ H]%andb_prop. now apply Z.ltb_lt.
Qed.

Lemma loop_exit (fuel : nat) (st : loop_state) :
  loop_test st = false -> loop fuel st = Ret st.
Proof. intros H. destruct fuel; cbn [while_loop]; now rewrite H. Qed.

Lemma loop_step (fuel : nat) (st : loop_state) :
  loop_test st = true ->
  loop (S fuel) st = (st' <- body st ;; loop fuel st').
Proof. intros H. cbn [while_loop]. now rewrite H. Qed.

Lemma body_finishes (st : loop_state) : eval M (body st) <> Unfinished.
Proof.
  destruct (quiet_loop_body M o_z_km r_lon_km st)
    as [(a & E & _) | (e & E & _)]; congruence.
Qed.

Lemma passes_count (n : nat) (st st' : loop_state) :
  reaches n st st' -> count st' = count st + Z.of_nat n.
Proof.
  induction 1 as [st | n st st1 st2 Ht Hb _ IH]; [lia |].
  apply loop_body_returned in Hb as (Hc & _). lia.
Qed.

Lemma passes_bound (n : nat) (st st' : loop_state) :
  reaches n st st' -> 0 <= count st <= 5 -> Z.of_nat n <= 5 - count st.
Proof.
  induction 1 as [st | n st st1 st2 Ht Hb _ IH]; intros Hc; [lia |].
  apply loop_test_count in Ht.
  apply loop_body_returned in Hb as (Hb & _). lia.
Qed.

(** Going [n] times through the body uses up [n] units of fuel. *)
Lemma passes_run (n : nat) (st st' : loop_state) (fuel : nat) :
  reaches n st st' -> eval M (loop (n + fuel) st) = eval M (loop fuel st').
Proof.
  induction 1 as [st | n st st1 st2 Ht Hb _ IH]; [reflexivity |].
  cbn [Nat.add]. now rewrite (loop_step _ _ Ht), eval_bind, Hb.
Qed.

(** With fuel for the passes that the counter still allows, the loop ends:
    it returns after some passes, once its test fails, or an exception
    leaves the body during a pass. *)
Lemma loop_outcome (fuel : nat) (st : loop_state) :
  5 - count st <= Z.of_nat fuel ->
  match eval M (loop fuel st) with
  | Returned st' => exists n, reaches n st st' /\ loop_test st' = false
  | Uncaught e =>
      exists n st', reaches n st st' /\ loop_test st' = true /\
                    eval M (body st') = Uncaught e
  | Unfinished => False
  end.
Proof.
  revert st. induction fuel as [| fuel IH]; intros st Hf.
  - assert (Ht : loop_test st = false).
    { unfold loop_test. apply andb_false_iff. right. apply Z.ltb_ge. lia. }
    rewrite (loop_exit _ _ Ht). cbn [eval].
    exists O. split; [apply passes_O | exact Ht].
  - destruct (loop_test st) eqn:Ht.
    + rewrite (loop_step _ _ Ht), eval_bind.
      destruct (eval M (body st)) as [st1 | e |] eqn:Hb.
      * pose proof (loop_body_returned M _ _ _ _ Hb) as (Hc & _).
        assert (Hf1 : 5 - count st1 <= Z.of_nat fuel) by lia.
        specialize (IH st1 Hf1).
        destruct (eval M (loop fuel st1)) as [st2 | e |].
        -- destruct IH as (n & Hn & Hx).
           exists (S n). split; [| exact Hx].
           exact (passes_S _ _ _ _ _ _ _ Ht Hb Hn).
        -- destruct IH as (n & st' & Hn & Hx & He).
           exists (S n), st'. split; [| split; assumption].
           exact (passes_S _ _ _ _ _ _ _ Ht Hb Hn).
        -- exact IH.
      * exists O, st. split; [apply passes_O | split; [exact Ht | exact Hb]].
      * exact (body_finishes st Hb).
    + rewrite (loop_exit _ _ Ht). cbn [eval].
      exists O. split; [apply passes_O | exact Ht].
Qed.

(** Where two successive iterates are within the tolerance of the
    specification, the test of the loop fails. *)
Lemma close_enough_stops (st : loop_state) :
  close_enough spec_tolerance st = true -> loop_test st = false.
Proof.
  unfold close_enough, loop_test. rewrite tolerance_is_1e_6. intros H.
  rewrite (leb_not_ltb _ _ H), orb_false_r.
  apply leb_not_nan in H. rewrite fabs_nan in H.
  destruct (is_nan (prev_lat_rad st)) eqn:Hp; [| reflexivity].
  now rewrite (sub_nan_r (lat st) _ Hp) in H.
Qed.

(** And where the test fails before the fifth pass, the previous iterate
    is a number and the difference is not above the tolerance. *)
Lemma early_stop (st : loop_state) :
  loop_test st = false -> count st < 5 ->
  is_nan (prev_lat_rad st) = false /\
  ltb tolerance (fabs (sub (lat st) (prev_lat_rad st))) = false.
Proof.
  unfold loop_test. intros H Hc.
  apply andb_false_iff in H as [H | H].
  - now apply orb_false_iff in H.
  - apply Z.ltb_ge in H. lia.
Qed.

End Loop.

(** C6.  From the entry state of the loop (the previous iterate a NaN, the
    counter 0), whatever the initial guess, the origin and the C library:
    the first test succeeds, so a first pass is made; the loop ends within
    its cap; when it returns it has made n passes with 1 <= n <= 5, the
    counter is n, and either n = 5 or the previous iterate is a number and
    the last two iterates do not differ by more than the tolerance; when an
    exception ends it, that is during one of the first five passes; and as
    soon as, after some pass, two successive iterates differ by at most
    1e-6, the loop returns there, while a return before the fifth pass
    means that they do, when their difference is a number.  The literal 10e-7 of the code is the
    double 1e-6. *)
Theorem loop_iterations (M : libm) (o_z_km r_lon_km lat0 : float) :
  loop_test (loop_entry lat0) = true /\
  tolerance = spec_tolerance /\
  eval M (while_loop iteration_cap o_z_km r_lon_km (loop_entry lat0))
  <> Unfinished /\
  (forall st,
     eval M (while_loop iteration_cap o_z_km r_lon_km (loop_entry lat0))
     = Returned st ->
     exists n, (1 <= n <= 5)%nat /\
               passes M o_z_km r_lon_km n (loop_entry lat0) st /\
               count st = Z.of_nat n /\
               (n = 5%nat \/
                (is_nan (prev_lat_rad st) = false /\
                 ltb tolerance (fabs (sub (lat st) (prev_lat_rad st)))
                 = false /\
                 (is_nan (sub (lat st) (prev_lat_rad st)) = false ->
                  close_enough spec_tolerance st = true)))) /\
  (forall e,
     eval M (while_loop iteration_cap o_z_km r_lon_km (loop_entry lat0))
     = Uncaught e ->
     exists n st, (n < 5)%nat /\
                  passes M o_z_km r_lon_km n (loop_entry lat0) st /\
                  eval M (loop_body o_z_km r_lon_km st) = Uncaught e) /\
  (forall k st,
     (1 <= k)%nat ->
     passes M o_z_km r_lon_km k (loop_entry lat0) st ->
     close_enough spec_tolerance st = true ->
     eval M (while_loop iteration_cap o_z_km r_lon_km (loop_entry lat0))
     = Returned st).
Proof.
  pose proof (loop_outcome M o_z_km r_lon_km iteration_cap (loop_entry lat0))
    as Hout.
  assert (H0 : 5 - count (loop_entry lat0) <= Z.of_nat iteration_cap)
    by (unfold iteration_cap; cbn [loop_entry count]; lia).
  specialize (Hout H0). clear H0.
  split; [apply loop_test_entry |]. split; [apply tolerance_is_1e_6 |].
  split; [| split; [| split]].
  - intros E. rewrite E in Hout. exact Hout.
  - intros st E. rewrite E in Hout. destruct Hout as (n & Hn & Hx).
    pose proof (passes_count _ _ _ _ _ _ Hn) as Hc.
    pose proof (passes_bound _ _ _ _ _ _ Hn) as Hb.
    cbn [loop_entry count] in Hc, Hb.
    assert (H1 : (1 <= n <= 5)%nat).
    { destruct n as [| n]; [| lia].
      inversion Hn; subst. rewrite loop_test_entry in Hx. discriminate. }
    exists n. split; [exact H1 |]. split; [exact Hn |].
    split; [lia |].
    destruct (Nat.eq_dec n 5) as [-> | Hn5]; [left; reflexivity | right].
    destruct (early_stop st Hx) as (Hp & Hd); [lia |].
    split; [exact Hp |]. split; [exact Hd |].
    intros Hnum. unfold close_enough. rewrite <- tolerance_is_1e_6.
    apply not_ltb_leb; [exact Hd | now rewrite fabs_nan | reflexivity].
  - intros e E. rewrite E in Hout.
    destruct Hout as (n & st & Hn & Ht & He).
    exists n, st. split; [| split; assumption].
    pose proof (passes_count _ _ _ _ _ _ Hn) as Hc.
    apply loop_test_count in Ht. cbn [loop_entry count] in Hc. lia.
  - intros k st Hk Hp Hclose.
    pose proof (passes_bound _ _ _ _ _ _ Hp) as Hb.
    cbn [loop_entry count] in Hb.
    assert (Hcap : iteration_cap = (k + (5 - k))%nat)
      by (unfold iteration_cap; lia).
    rewrite Hcap, (passes_run _ _ _ _ _ _ _ Hp).
    rewrite (loop_exit _ _ _ _ (close_enough_stops _ Hclose)).
    reflexivity.
Qed.

Lemma loop_at_station :
  exists st,
    eval small_angle
      (while_loop iteration_cap zero R_E_KM (loop_entry (div one R_E_KM)))
    = Returned st /\
    count st = 3 /\
    close_enough spec_tolerance st = true /\
    exists n, (1 <= n <= 5)%nat /\
              passes small_angle zero R_E_KM n
                     (loop_entry (div one R_E_KM)) st /\
              count st = Z.of_nat n /\
              (n = 5%nat \/
               (is_nan (prev_lat_rad st) = false /\
                ltb tolerance (fabs (sub (lat st) (prev_lat_rad st)))
                = false /\
                (is_nan (sub (lat st) (prev_lat_rad st)) = false ->
                 close_enough spec_tolerance st = true))).
Proof.
  eexists. split; [vm_compute; reflexivity |].
  split; [reflexivity |]. split; [vm_compute; reflexivity |].
  destruct (loop_iterations small_angle zero R_E_KM (div one R_E_KM))
    as (_ & _ & _ & H & _).
  apply H. vm_compute. reflexivity.
Defined.

(** ** The ranges of latitude and longitude *)

Section Ranges.

Variable M : libm.
Hypothesis HM : arctangents_in_range M.

Lemma within_zero (bound : float) (s : bool) :
  leb zero bound = true -> within bound (S754_zero s).
Proof. intros H. right. exact H. Qed.

Lemma math_atan_within (q l : float) :
  eval M (math_atan q) = Returned l -> within half_pi l.
Proof.
  destruct HM as [Hatan _].
  destruct (math_1_outcome M c_atan q (answers_c_atan M))
    as [(v & Ev & E & _) | E]; fold math_atan in E; rewrite E;
    [| discriminate].
  intros [= <-].
  destruct q as [s | s | | s m e]; cbn [c_atan eval] in Ev;
    injection Ev as <-.
  - apply within_zero. vm_compute. reflexivity.
  - apply Hatan.
  - now left.
  - apply Hatan.
Qed.

Lemma m_atan2_within (y x : float) :
  exists v, eval M (m_atan2 y x) = Returned v /\ within pi v.
Proof.
  destruct HM as [_ Hatan2]. unfold m_atan2.
  repeat match goal with
         | |- context [if ?b then _ else _] => destruct b
         end;
    eexists; (split; [reflexivity |]);
    try (now left);
    try apply Hatan2;
    right; rewrite fabs_copysign; vm_compute; reflexivity.
Qed.

Lemma math_atan2_within (y x l : float) :
  eval M (math_atan2 y x) = Returned l -> within pi l.
Proof.
  destruct (m_atan2_within y x) as (v & Ev & Hv).
  unfold math_atan2, math_2. rewrite eval_bind, Ev.
  repeat match goal with
         | |- context [if ?b then _ else _] => destruct b
         end; try discriminate.
  now intros [= <-].
Qed.

(** What holds of the latitude after every pass holds of it when the loop
    returns, since the loop returns after a pass. *)
Lemma while_loop_lat (P : float -> Prop) (oz rl : float) :
  (forall st st', eval M (loop_body oz rl st) = Returned st' -> P (lat st')) ->
  forall fuel st st',
    loop_test st = true \/ P (lat st) ->
    eval M (while_loop fuel oz rl st) = Returned st' ->
    P (lat st').
Proof.
  intros Hbody. induction fuel as [| fuel IH]; intros st st' Hst.
  - cbn [while_loop]. destruct (loop_test st) eqn:Ht; [discriminate |].
    intros [= <-]. destruct Hst as [Hst | Hst]; [discriminate | exact Hst].
  - cbn [while_loop]. destruct (loop_test st) eqn:Ht.
    + intros (st1 & Hb & Hrest)%eval_bind_returned.
      apply (IH st1 st'); [| exact Hrest].
      right. exact (Hbody _ _ Hb).
    + intros [= <-]. destruct Hst as [Hst | Hst]; [discriminate | exact Hst].
Qed.

Lemma loop_body_lat_within (oz rl : float) (st st' : loop_state) :
  eval M (loop_body oz rl st) = Returned st' -> within half_pi (lat st').
Proof.
  intros (_ & _ & q & Hq)%loop_body_returned.
  exact (math_atan_within _ _ Hq).
Qed.

End Ranges.

(** For every origin: whenever GeodeticSolver completes without error
    against a C library whose arctangents keep to their ranges, the
    latitude of the pose is NaN or lies between the doubles nearest to
    -pi/2 and pi/2, and its longitude is NaN or lies between the doubles
    nearest to -pi and pi. *)
Theorem pose_within_ranges
  (M : libm) (origin : EcefVector) (z_vec_km : float) (pose : GeodeticPose) :
  arctangents_in_range M ->
  eval M (solve origin z_vec_km) = Returned pose ->
  within half_pi (lat_rad pose) /\ within pi (lon_rad pose).
Proof.
  intros HM H. unfold solve in H. cbv zeta in H.
  apply eval_bind_returned in H as (lon & Hlon & H).
  apply eval_bind_returned in H as (lat0 & _ & H).
  apply eval_bind_returned in H as (r & _ & H).
  apply eval_bind_returned in H as (st & Hst & H).
  apply eval_bind_returned in H as (c & _ & H).
  apply eval_bind_returned in H as (h & _ & H).
  cbn [eval] in H. injection H as <-. cbn [lat_rad lon_rad]. split.
  - apply (while_loop_lat M (within half_pi) (z_km origin) r
             (loop_body_lat_within M HM (z_km origin) r)
             iteration_cap (loop_entry lat0) st);
      [left; apply loop_test_entry | exact Hst].
  - exact (math_atan2_within M HM _ _ _ Hlon).
Qed.

Lemma within_clamp (bound x : float) :
  leb (fabs bound) bound = true -> within bound (clamp bound x).
Proof.
  intros Hb. unfold clamp.
  destruct (leb (fabs x) bound) eqn:Hx; [right; exact Hx |].
  destruct (is_nan x); [left; reflexivity |].
  right. rewrite fabs_copysign. exact Hb.
Defined.

Lemma small_angle_in_range : arctangents_in_range small_angle.
Proof.
  split.
  - intros x. apply (within_clamp half_pi). vm_compute. reflexivity.
  - intros y x. apply (within_clamp pi). vm_compute. reflexivity.
Defined.

Lemma pose_within_ranges_at_station :
  arctangents_in_range small_angle /\
  exists pose,
    eval small_angle
      (solve station (z_km (difference north_of_station station)))
    = Returned pose /\
    within half_pi (lat_rad pose) /\ within pi (lon_rad pose).
Proof.
  split; [exact small_angle_in_range |].
  eexists. split; [vm_compute; reflexivity |].
  apply (pose_within_ranges small_angle station
           (z_km (difference north_of_station station)));
    [exact small_angle_in_range | vm_compute; reflexivity].
Defined.

(** On an origin of NaN the solver completes with a pose of NaN, as soon as
    the square of the eccentricity does not overflow. *)
Section NanOrigin.

Variable M : libm.
Hypothesis pow_E_E : is_inf (M (Pow E_E two)) = false.

Lemma sq_E_E : eval M (sq E_E) = Returned (M (Pow E_E two)).
Proof.
  assert (E : sq E_E
              = Libm (Pow E_E two)
                  (fun ix => if is_inf ix then Raise OverflowError
                             else Ret ix))
    by reflexivity.
  rewrite E. cbn [eval]. now rewrite pow_E_E.
Qed.

Lemma calc_denom_nan : eval M (calc_denom E_E nan) = Returned nan.
Proof.
  unfold calc_denom. rewrite eval_bind, sq_E_E.
  destruct (M (Pow E_E two)); reflexivity.
Qed.

Lemma loop_body_nan (prev c : float) (k : Z) :
  eval M (loop_body nan nan
            {| lat := nan; prev_lat_rad := prev; c_E := c; count := k |})
  = Returned {| lat := nan; prev_lat_rad := nan; c_E := nan; count := k + 1 |}.
Proof.
  unfold loop_body. cbn [lat count].
  rewrite eval_bind, calc_denom_nan.
  rewrite eval_bind. cbn [truediv eqb SFeqb SFcompare nan eval].
  rewrite eval_bind, sq_E_E.
  destruct (M (Pow E_E two)); reflexivity.
Qed.

Lemma while_loop_nan :
  eval M (while_loop iteration_cap nan nan (loop_entry nan))
  = Returned {| lat := nan; prev_lat_rad := nan; c_E := nan; count := 5 |}.
Proof.
  unfold iteration_cap, loop_entry.
  do 5 (rewrite loop_step by reflexivity;
        rewrite eval_bind, loop_body_nan; cbn [Z.add Pos.add Pos.succ]).
  reflexivity.
Qed.

Lemma nan_origin_nan_pose (z_vec_km : float) :
  eval M (solve nan_vector z_vec_km) = Returned nan_pose.
Proof.
  unfold solve. cbv zeta.
  rewrite eval_bind.
  assert (E1 : math_atan2 (y_km nan_vector) (x_km nan_vector) = Ret nan)
    by reflexivity.
  rewrite E1. cbn [eval]. rewrite eval_bind.
  assert (E2 : initial_latitude nan_vector z_vec_km = Ret nan)
    by (destruct z_vec_km; reflexivity).
  rewrite E2. cbn [eval]. rewrite eval_bind.
  assert (E3 : polar_distance nan_vector = Ret nan) by reflexivity.
  rewrite E3. cbn [eval z_km nan_vector].
  rewrite eval_bind, while_loop_nan. reflexivity.
Qed.

End NanOrigin.

(** C9 fails on the code: with the origin (NaN, NaN, NaN), which the
    command line accepts as "nan nan nan", the solver completes without
    error and the latitude and longitude of its pose are NaN, in neither
    interval. *)
Lemma nan_origin_leaves_ranges :
  (forall M : libm,
     is_inf (M (Pow E_E two)) = false ->
     eval M (solve nan_vector (z_km (difference on_x_axis nan_vector)))
     = Returned nan_pose) /\
  eval small_angle (solve nan_vector (z_km (difference on_x_axis nan_vector)))
  = Returned nan_pose /\
  is_nan (lat_rad nan_pose) = true /\
  ltb (neg half_pi) (lat_rad nan_pose) = false /\
  ltb (lat_rad nan_pose) half_pi = false /\
  is_nan (lon_rad nan_pose) = true /\
  ltb (neg pi) (lon_rad nan_pose) = false /\
  leb (lon_rad nan_pose) pi = false.
Proof.
  split; [intros M H; now apply nan_origin_nan_pose |].
  repeat split; vm_compute; reflexivity.
Qed.

(** ** The program as a whole *)

Section WholeProgram.

Variable M : libm.

Lemma quiet_bind_returned {A B : Type} (p : py A) (f : A -> py B) :
  quiet M p -> (forall a, eval M p = Returned a -> quiet M (f a)) ->
  quiet M (bind p f).
Proof.
  intros [(a & E & O) | (e & E & Ne & O)] Hf.
  - destruct (Hf a E) as [(b & Eb & Ob) | (e & Eb & Ne & Ob)].
    + left. exists b. now rewrite eval_bind, output_bind, E, O, Eb, Ob.
    + right. exists e. now rewrite eval_bind, output_bind, E, O, Eb, Ob.
  - right. exists e. now rewrite eval_bind, output_bind, E, O.
Qed.

Lemma quiet_while_loop (oz rl : float) (fuel : nat) (st : loop_state) :
  5 - count st <= Z.of_nat fuel -> quiet M (while_loop fuel oz rl st).
Proof.
  revert st. induction fuel as [| fuel IH]; intros st Hf.
  - assert (Ht : loop_test st = false).
    { unfold loop_test. apply andb_false_iff. right. apply Z.ltb_ge. lia. }
    rewrite (loop_exit oz rl _ _ Ht). apply quiet_ret.
  - destruct (loop_test st) eqn:Ht.
    + rewrite (loop_step oz rl _ _ Ht).
      apply quiet_bind_returned; [apply quiet_loop_body |].
      intros st1 Hb. apply IH.
      apply loop_body_returned in Hb as (Hc & _). lia.
    + rewrite (loop_exit oz rl _ _ Ht). apply quiet_ret.
Qed.

Lemma quiet_solve (o : EcefVector) (zv : float) : quiet M (solve o zv).
Proof.
  unfold solve. cbv zeta.
  apply quiet_bind; [apply quiet_math_atan2 | intros lon].
  apply quiet_bind; [apply quiet_initial_latitude | intros lat0].
  apply quiet_bind; [apply quiet_polar_distance | intros r].
  apply quiet_bind.
  { apply quiet_while_loop. unfold iteration_cap. cbn [loop_entry count]. lia. }
  intros st.
  apply quiet_bind; [apply quiet_math_1, answers_c_cos | intros c].
  apply quiet_bind; [apply quiet_truediv | intros h].
  apply quiet_ret.
Qed.

Lemma quiet_rotate (d : EcefVector) (p : GeodeticPose) : quiet M (rotate d p).
Proof.
  unfold rotate. cbv zeta.
  repeat (apply quiet_bind;
          [first [apply quiet_math_1, answers_c_cos
                 | apply quiet_math_1, answers_c_sin] | intros ?]).
  apply quiet_ret.
Qed.

Lemma quiet_ecef_to_sez (o t : EcefVector) : quiet M (ecef_to_sez o t).
Proof.
  unfold ecef_to_sez. cbv zeta.
  apply quiet_bind; [apply quiet_solve | intros pose]. apply quiet_rotate.
Qed.

End WholeProgram.

(** X1.  With six arguments of which one is not a number for float(), the
    program is the ValueError of that conversion: nothing is computed,
    nothing is printed, and the C library is not called. *)
Theorem non_numeric_argument_is_value_error
  (argv : list argument) (i : nat) (s : string) :
  List.length argv = 7%nat ->
  (1 <= i <= 6)%nat ->
  nth i argv (Numeric zero) = NonNumeric s ->
  main argv = Raise ValueError.
Proof.
  intros Hlen Hi Hnth.
  destruct argv as [| a0 [| a1 [| a2 [| a3 [| a4 [| a5 [| a6 [| a7 l]]]]]]]];
    try discriminate Hlen.
  destruct i as [| [| [| [| [| [| [| i]]]]]]]; try lia;
    cbn [nth] in Hnth; subst;
    repeat match goal with
           | a : argument |- _ => destruct a
           end; reflexivity.
Qed.

Lemma non_numeric_third_argument :
  List.length [script_name; Numeric one; Numeric one; NonNumeric "abc";
               Numeric one; Numeric one; Numeric one] = 7%nat /\
  (1 <= 3 <= 6)%nat /\
  nth 3 [script_name; Numeric one; Numeric one; NonNumeric "abc";
         Numeric one; Numeric one; Numeric one] (Numeric zero)
  = NonNumeric "abc" /\
  main [script_name; Numeric one; Numeric one; NonNumeric "abc";
        Numeric one; Numeric one; Numeric one]
  = Raise ValueError.
Proof.
  split; [reflexivity |]. split; [lia |]. split; [reflexivity |].
  apply (non_numeric_argument_is_value_error
           [script_name; Numeric one; Numeric one; NonNumeric "abc";
            Numeric one; Numeric one; Numeric one] 3 "abc");
    [reflexivity | lia | reflexivity].
Defined.

(** X2.  Whatever the command line and the C library, the program ends in
    one of three ways: the usage line and exit status 0 when sys.argv is
    not seven long; an uncaught exception of the conversions or of the
    numeric pipeline, exit status 1 and no output at all; or the three
    lines s_km, e_km, z_km of the vector that lines 63-96 return on the six
    floats, and exit status 0.  It never prints part of a result. *)
Theorem main_outcomes (M : libm) (argv : list argument) :
  (List.length argv <> 7%nat /\
   eval M (main argv) = Uncaught SystemExit /\
   output M (main argv) = [Text usage] /\
   exit_status (eval M (main argv)) = Some 0) \/
  (List.length argv = 7%nat /\
   exists e, eval M (main argv) = Uncaught e /\ e <> SystemExit /\
             output M (main argv) = [] /\
             exit_status (eval M (main argv)) = Some 1) \/
  (exists a0 origin target v,
     argv = a0 :: tl (argv_of origin target) /\
     eval M (ecef_to_sez origin target) = Returned v /\
     eval M (main argv) = Returned tt /\
     output M (main argv)
     = [Repr (s_km v); Repr (e_km v); Repr (sez_z_km v)] /\
     exit_status (eval M (main argv)) = Some 0).
Proof.
  destruct (Nat.eq_dec (List.length argv) 7) as [Hlen | Hlen].
  2:{ left. destruct (usage_on_wrong_argument_count argv Hlen) as (E & _).
      rewrite E. repeat split. exact Hlen. }
  right.
  destruct argv as [| a0 [| a1 [| a2 [| a3 [| a4 [| a5 [| a6 [| a7 l]]]]]]]];
    try discriminate Hlen.
  assert (Hbad : forall e, e = ValueError ->
            main [a0; a1; a2; a3; a4; a5; a6] = Raise e ->
            exists e, eval M (main [a0; a1; a2; a3; a4; a5; a6]) = Uncaught e /\
                      e <> SystemExit /\
                      output M (main [a0; a1; a2; a3; a4; a5; a6]) = [] /\
                      exit_status (eval M (main [a0; a1; a2; a3; a4; a5; a6]))
                      = Some 1).
  { intros e -> E. rewrite E. exists ValueError. repeat split. discriminate. }
  destruct a1 as [ox | s1]; [| left; split; [reflexivity |];
                               now apply (Hbad ValueError)].
  destruct a2 as [oy | s2]; [| left; split; [reflexivity |];
                               now apply (Hbad ValueError)].
  destruct a3 as [oz | s3]; [| left; split; [reflexivity |];
                               now apply (Hbad ValueError)].
  destruct a4 as [x | s4]; [| left; split; [reflexivity |];
                              now apply (Hbad ValueError)].
  destruct a5 as [y | s5]; [| left; split; [reflexivity |];
                              now apply (Hbad ValueError)].
  destruct a6 as [z | s6]; [| left; split; [reflexivity |];
                              now apply (Hbad ValueError)].
  clear Hbad.
  set (origin := {| x_km := ox; y_km := oy; z_km := oz |}).
  set (target := {| x_km := x; y_km := y; z_km := z |}).
  change (main [a0; Numeric ox; Numeric oy; Numeric oz;
                Numeric x; Numeric y; Numeric z])
    with (v <- ecef_to_sez origin target ;;
          Emit (Repr (s_km v)) (Emit (Repr (e_km v)) (Emit (Repr (sez_z_km v))
            (Ret tt)))).
  destruct (quiet_ecef_to_sez M origin target)
    as [(v & E & O) | (e & E & Ne & O)].
  - right. exists a0, origin, target, v.
    rewrite eval_bind, output_bind, E, O. repeat split; trivial.
  - left. split; [reflexivity |]. exists e.
    rewrite eval_bind, output_bind, E, O. repeat split; trivial.
    now destruct e.
Qed.

(** ** More on the latitude loop *)

Section LoopStructure.

Variable M : libm.
Variables o_z_km r_lon_km : float.

Lemma truediv_returned (a b c : float) :
  eval M (truediv a b) = Returned c -> is_zero b = false /\ c = div a b.
Proof.
  unfold truediv, is_zero. destruct (eqb b zero); [discriminate |].
  intros [= <-]. split; reflexivity.
Qed.

(** What a completed pass has computed (lines 80-84). *)
Lemma loop_body_inversion (st st' : loop_state) :
  eval M (loop_body o_z_km r_lon_km st) = Returned st' ->
  exists denom e2 s,
    eval M (calc_denom E_E (lat st)) = Returned denom /\
    is_zero denom = false /\
    eval M (sq E_E) = Returned e2 /\
    eval M (math_sin (lat st)) = Returned s /\
    is_zero r_lon_km = false /\
    prev_lat_rad st' = lat st /\
    c_E st' = div R_E_KM denom /\
    count st' = count st + 1 /\
    eval M (math_atan
              (div (add o_z_km (mul (mul (div R_E_KM denom) e2) s))
                   r_lon_km))
    = Returned (lat st').
Proof.
  unfold loop_body. intros H.
  apply eval_bind_returned in H as (denom & Hd & H).
  apply eval_bind_returned in H as (c & Hc & H).
  apply eval_bind_returned in H as (e2 & He & H).
  apply eval_bind_returned in H as (s & Hs & H).
  apply eval_bind_returned in H as (q & Hq & H).
  apply eval_bind_returned in H as (l & Hl & H).
  cbn [eval] in H. injection H as <-.
  apply truediv_returned in Hc as (Hdz & ->).
  apply truediv_returned in Hq as (Hrz & ->).
  exists denom, e2, s. cbn [lat prev_lat_rad c_E count].
  split; [exact Hd |]. split; [exact Hdz |]. split; [exact He |].
  split; [exact Hs |]. split; [exact Hrz |]. split; [reflexivity |].
  split; [reflexivity |]. split; [reflexivity |]. exact Hl.
Qed.


Lemma loop_fuel_irrelevant (f1 : nat) :
  forall (f2 : nat) (st : loop_state),
    5 - count st <= Z.of_nat f1 -> 5 - count st <= Z.of_nat f2 ->
    eval M (while_loop f1 o_z_km r_lon_km st)
    = eval M (while_loop f2 o_z_km r_lon_km st).
Proof.
  induction f1 as [| f1 IH]; intros f2 st H1 H2.
  - assert (Ht : loop_test st = false).
    { unfold loop_test. apply andb_false_iff. right. apply Z.ltb_ge. lia. }
    now rewrite !(loop_exit _ _ _ _ Ht).
  - destruct (loop_test st) eqn:Ht.
    + pose proof (loop_test_count _ Ht) as Hc.
      destruct f2 as [| f2]; [lia |].
      rewrite !(loop_step _ _ _ _ Ht), !eval_bind.
      destruct (eval M (loop_body o_z_km r_lon_km st)) as [st1 | e |] eqn:Hb;
        try reflexivity.
      apply loop_body_returned in Hb as (Hb & _). apply IH; lia.
    + now rewrite !(loop_exit _ _ _ _ Ht).
Qed.

End LoopStructure.

(** X3.  The loop ends by its own counter: from any state, it ends the
    same way on every supply of fuel that covers the passes the counter
    still allows (five less the counter); in particular a state whose
    counter has reached five is returned as it is. *)
Theorem loop_ends_by_its_counter
  (M : libm) (o_z_km r_lon_km : float) (st : loop_state) (f1 f2 : nat) :
  5 - count st <= Z.of_nat f1 ->
  5 - count st <= Z.of_nat f2 ->
  eval M (while_loop f1 o_z_km r_lon_km st)
  = eval M (while_loop f2 o_z_km r_lon_km st) /\
  (5 <= count st -> eval M (while_loop f1 o_z_km r_lon_km st) = Returned st).
Proof.
  intros H1 H2. split; [now apply loop_fuel_irrelevant |].
  intros H5. assert (Ht : loop_test st = false).
  { unfold loop_test. apply andb_false_iff. right. apply Z.ltb_ge. lia. }
  now rewrite (loop_exit _ _ _ _ Ht).
Qed.

Lemma loop_with_spare_fuel_at_station :
  5 - count (loop_entry (div one R_E_KM)) <= Z.of_nat 5 /\
  5 - count (loop_entry (div one R_E_KM)) <= Z.of_nat 9 /\
  eval small_angle (while_loop 5 zero R_E_KM (loop_entry (div one R_E_KM)))
  = eval small_angle (while_loop 9 zero R_E_KM (loop_entry (div one R_E_KM))).
Proof.
  split; [cbn [loop_entry count]; lia |].
  split; [cbn [loop_entry count]; lia |].
  apply (loop_ends_by_its_counter small_angle zero R_E_KM
           (loop_entry (div one R_E_KM)) 5 9);
    cbn [loop_entry count]; lia.
Defined.



(** ** calc_denom and the rotation, case by case *)

Section SpecialValues.

Variable M : libm.

Lemma mul_zero_r (x y : float) :
  is_finite x = true -> is_zero y = true -> is_zero (mul x y) = true.
Proof.
  intros Hx [s ->]%is_zero_spec.
  destruct x as [sx | sx | | sx mx ex]; try discriminate; reflexivity.
Qed.

Lemma is_finite_mul_r (x y : float) :
  is_finite (mul x y) = true -> is_finite y = true.
Proof.
  destruct y as [sy | sy | | sy my ey]; try reflexivity;
    destruct x as [sx | sx | | sx mx ex]; intros H; discriminate H.
Qed.

Lemma sub_one_zero (y : float) : is_zero y = true -> sub one y = one.
Proof. intros [s ->]%is_zero_spec. vm_compute. reflexivity. Qed.

Lemma math_sqrt_one : math_sqrt one = Ret one.
Proof. vm_compute. reflexivity. Qed.

Lemma sq_zero (x : float) : is_zero x = true -> sq x = Ret zero.
Proof. intros [s ->]%is_zero_spec. now destruct s. Qed.

Lemma math_sin_zero (x : float) : is_zero x = true -> math_sin x = Ret x.
Proof. intros [s ->]%is_zero_spec. reflexivity. Qed.

Lemma math_cos_zero (x : float) : is_zero x = true -> math_cos x = Ret one.
Proof. intros [s ->]%is_zero_spec. vm_compute. reflexivity. Qed.

Lemma math_asin_zero (x : float) : is_zero x = true -> math_asin x = Ret x.
Proof. intros [s ->]%is_zero_spec. reflexivity. Qed.

Lemma math_atan_zero (x : float) : is_zero x = true -> math_atan x = Ret x.
Proof. intros [s ->]%is_zero_spec. reflexivity. Qed.

Lemma calc_denom_at_zero_latitude (ecc l a : float) :
  is_zero l = true ->
  eval M (sq ecc) = Returned a -> is_finite a = true ->
  eval M (calc_denom ecc l) = Returned one.
Proof.
  intros Hl Ea Fa. unfold calc_denom.
  rewrite eval_bind, Ea, (math_sin_zero _ Hl). cbn [bind].
  rewrite (sq_zero _ Hl). cbn [bind].
  assert (Hz : is_zero (mul a zero) = true) by now apply mul_zero_r.
  rewrite (sub_one_zero _ Hz), math_sqrt_one. reflexivity.
Qed.

Lemma calc_denom_at_zero_eccentricity (ecc l s b : float) :
  is_zero ecc = true ->
  eval M (math_sin l) = Returned s ->
  eval M (sq s) = Returned b -> is_finite b = true ->
  eval M (calc_denom ecc l) = Returned one.
Proof.
  intros He Es Eb Fb. unfold calc_denom.
  rewrite (sq_zero _ He). cbn [bind].
  rewrite eval_bind, Es, eval_bind, Eb.
  assert (Hz : is_zero (mul zero b) = true) by now apply mul_zero_l.
  rewrite (sub_one_zero _ Hz), math_sqrt_one. reflexivity.
Qed.

(** The four trigonometric values decide how the rotation ends. *)
Lemma rotate_outcome (d : EcefVector) (p : GeodeticPose) :
  (exists cl sl sp cp,
     eval M (math_cos (lon_rad p)) = Returned cl /\
     eval M (math_sin (lon_rad p)) = Returned sl /\
     eval M (math_sin (lat_rad p)) = Returned sp /\
     eval M (math_cos (lat_rad p)) = Returned cp /\
     eval M (rotate d p)
     = Returned
         {| s_km := sub (add (mul (x_km d) cl) (mul (mul (y_km d) sl) sp))
                        (mul (z_km d) cp);
            e_km := add (mul (x_km d) (neg sl)) (mul (y_km d) cl);
            sez_z_km := add (mul (add (mul (x_km d) cl) (mul (y_km d) sl)) cp)
                            (mul (z_km d) sp) |}) \/
  (eval M (rotate d p) = Uncaught ValueError /\
   (eval M (math_cos (lon_rad p)) = Uncaught ValueError \/
    eval M (math_sin (lon_rad p)) = Uncaught ValueError \/
    eval M (math_sin (lat_rad p)) = Uncaught ValueError \/
    eval M (math_cos (lat_rad p)) = Uncaught ValueError)).
Proof.
  unfold rotate. cbv zeta.
  destruct (math_trig_outcome M c_cos (lon_rad p) (answers_c_cos M))
    as [[cl Ecl] | Ecl];
  destruct (math_trig_outcome M c_sin (lon_rad p) (answers_c_sin M))
    as [[sl Esl] | Esl];
  destruct (math_trig_outcome M c_sin (lat_rad p) (answers_c_sin M))
    as [[sp Esp] | Esp];
  destruct (math_trig_outcome M c_cos (lat_rad p) (answers_c_cos M))
    as [[cp Ecp] | Ecp];
  fold math_cos in Ecl, Ecp; fold math_sin in Esl, Esp;
  repeat (rewrite eval_bind;
          rewrite ?Ecl, ?Esl, ?Esp, ?Ecp; cbv beta iota);
  try (right; split; [reflexivity | tauto]).
  left. exists cl, sl, sp, cp. cbn [eval]. tauto.
Qed.

Lemma math_sin_of_infinity (x : float) :
  is_inf x = true -> math_sin x = Raise ValueError.
Proof. destruct x; try discriminate. reflexivity. Qed.

Lemma math_cos_of_infinity (x : float) :
  is_inf x = true -> math_cos x = Raise ValueError.
Proof. destruct x; try discriminate. reflexivity. Qed.

End SpecialValues.

(** X9.  calc_denom returns exactly 1.0 when the latitude is a zero and
    the square of the eccentricity came out finite, and when the
    eccentricity is a zero and the square of the sine came out finite: at
    the equator, and on a sphere, the radius of curvature c_E is R_E_KM. *)
Theorem calc_denom_is_one (M : libm) (ecc l : float) :
  (is_zero l = true /\
   exists a, eval M (sq ecc) = Returned a /\ is_finite a = true) \/
  (is_zero ecc = true /\
   exists s b, eval M (math_sin l) = Returned s /\
               eval M (sq s) = Returned b /\ is_finite b = true) ->
  eval M (calc_denom ecc l) = Returned one /\
  eval M (c <- calc_denom ecc l ;; truediv R_E_KM c) = Returned R_E_KM.
Proof.
  intros H.
  assert (E : eval M (calc_denom ecc l) = Returned one).
  { destruct H as [(Hl & a & Ea & Fa) | (He & s & b & Es & Eb & Fb)].
    - exact (calc_denom_at_zero_latitude M _ _ _ Hl Ea Fa).
    - exact (calc_denom_at_zero_eccentricity M _ _ _ _ He Es Eb Fb). }
  split; [exact E |]. rewrite eval_bind, E. vm_compute. reflexivity.
Qed.

Lemma calc_denom_is_one_at_equator :
  ((is_zero zero = true /\
    exists a, eval small_angle (sq E_E) = Returned a /\ is_finite a = true) \/
   (is_zero E_E = true /\
    exists s b, eval small_angle (math_sin zero) = Returned s /\
                eval small_angle (sq s) = Returned b /\
                is_finite b = true)) /\
  eval small_angle (calc_denom E_E zero) = Returned one /\
  eval small_angle (c <- calc_denom E_E zero ;; truediv R_E_KM c)
  = Returned R_E_KM.
Proof.
  assert (H : (is_zero zero = true /\
               exists a, eval small_angle (sq E_E) = Returned a /\
                         is_finite a = true) \/
              (is_zero E_E = true /\
               exists s b, eval small_angle (math_sin zero) = Returned s /\
                           eval small_angle (sq s) = Returned b /\
                           is_finite b = true)).
  { left. split; [reflexivity |]. eexists.
    split; vm_compute; reflexivity. }
  split; [exact H |].
  exact (calc_denom_is_one small_angle E_E zero H).
Defined.

(** X8.  SezRotator.rotate never ends otherwise than by returning a vector
    or by the ValueError of a sine or cosine.  It returns, whatever the
    difference vector, when latitude and longitude are finite and the C
    library's sine and cosine are finite at finite angles; it is a
    ValueError when the latitude or the longitude is an infinity. *)
Theorem rotate_returns_or_value_error
  (M : libm) (diff : EcefVector) (pose : GeodeticPose) :
  ((exists v, eval M (rotate diff pose) = Returned v) \/
   eval M (rotate diff pose) = Uncaught ValueError) /\
  (trig_finite M ->
   is_finite (lat_rad pose) = true -> is_finite (lon_rad pose) = true ->
   exists v, eval M (rotate diff pose) = Returned v) /\
  (is_inf (lat_rad pose) = true \/ is_inf (lon_rad pose) = true ->
   eval M (rotate diff pose) = Uncaught ValueError).
Proof.
  destruct (rotate_outcome M diff pose)
    as [(cl & sl & sp & cp & Ecl & Esl & Esp & Ecp & E)
       | (E & Hwhich)].
  - split; [left; eexists; exact E |]. split; [intros; eexists; exact E |].
    intros [H | H].
    + rewrite (math_sin_of_infinity _ H) in Esp. discriminate Esp.
    + rewrite (math_cos_of_infinity _ H) in Ecl. discriminate Ecl.
  - split; [right; exact E |]. split; [| intros _; exact E].
    intros HM Hlat Hlon. exfalso.
    destruct (math_cos_finite M _ HM Hlon) as (cl & Ecl & _).
    destruct (math_sin_finite M _ HM Hlon) as (sl & Esl & _).
    destruct (math_sin_finite M _ HM Hlat) as (sp & Esp & _).
    destruct (math_cos_finite M _ HM Hlat) as (cp & Ecp & _).
    destruct Hwhich as [H | [H | [H | H]]]; congruence.
Qed.

Lemma rotate_returns_at_a_pose :
  trig_finite small_angle /\
  is_finite one = true /\
  is_finite (neg two) = true /\
  (exists v,
     eval small_angle
       (rotate north_of_station
          {| lat_rad := one; lon_rad := neg two; hae_km := zero |})
     = Returned v) /\
  (is_inf inf = true \/ is_inf zero = true) /\
  eval small_angle
    (rotate north_of_station
       {| lat_rad := inf; lon_rad := zero; hae_km := zero |})
  = Uncaught ValueError.
Proof.
  split; [exact small_angle_trig_finite |].
  split; [reflexivity |]. split; [reflexivity |].
  split.
  - destruct (rotate_returns_or_value_error small_angle north_of_station
                {| lat_rad := one; lon_rad := neg two; hae_km := zero |})
      as (_ & H & _).
    apply H; [exact small_angle_trig_finite | reflexivity | reflexivity].
  - split; [left; reflexivity |].
    destruct (rotate_returns_or_value_error small_angle north_of_station
                {| lat_rad := inf; lon_rad := zero; hae_km := zero |})
      as (_ & _ & H).
    apply H. left. reflexivity.
Defined.

(** ** An origin in the equatorial plane *)

Section Equator.

Variable M : libm.
Hypothesis Hpow : is_finite (mul R_E_KM (M (Pow E_E two))) = true.

Lemma pow_E_E_finite : is_finite (M (Pow E_E two)) = true.
Proof. exact (is_finite_mul_r _ _ Hpow). Qed.

Lemma pow_E_E_not_inf : is_inf (M (Pow E_E two)) = false.
Proof.
  pose proof pow_E_E_finite as H.
  destruct (M (Pow E_E two)); try reflexivity; discriminate H.
Qed.

Lemma div_zero_l (x y : float) :
  is_zero x = true -> is_zero y = false -> is_nan y = false ->
  is_zero (div x y) = true.
Proof.
  intros [s ->]%is_zero_spec Hz Hn.
  destruct y as [sy | sy | | sy my ey]; try discriminate Hn.
  - apply not_true_iff_false in Hz. exfalso. apply Hz.
    apply is_zero_spec. now exists sy.
  - reflexivity.
  - reflexivity.
Qed.

Lemma truediv_nonzero (a b : float) :
  is_zero b = false -> truediv a b = Ret (div a b).
Proof. unfold truediv, is_zero. now intros ->. Qed.

Lemma truediv_R_E_KM_one : truediv R_E_KM one = Ret R_E_KM.
Proof. vm_compute. reflexivity. Qed.

Lemma zero_within_tolerance (x : float) :
  is_zero x = true -> ltb tolerance (fabs x) = false.
Proof. intros [s ->]%is_zero_spec. vm_compute. reflexivity. Qed.

Lemma is_zero_not_nan (x : float) : is_zero x = true -> is_nan x = false.
Proof. intros [s ->]%is_zero_spec. reflexivity. Qed.

(** One pass from a latitude of zero, over the equatorial plane. *)
Lemma loop_body_on_equator (oz rl : float) (st : loop_state) :
  is_zero (lat st) = true -> is_zero oz = true ->
  is_zero rl = false -> is_nan rl = false ->
  exists l,
    is_zero l = true /\
    eval M (loop_body oz rl st)
    = Returned {| lat := l; prev_lat_rad := lat st; c_E := R_E_KM;
                  count := count st + 1 |}.
Proof.
  intros Hl Hoz Hrz Hrn.
  exists (div (add oz (mul (mul R_E_KM (M (Pow E_E two))) (lat st))) rl).
  assert (Hq : is_zero
                 (div (add oz (mul (mul R_E_KM (M (Pow E_E two))) (lat st)))
                      rl) = true).
  { apply div_zero_l; trivial. apply add_zeros; trivial.
    now apply mul_zero_r. }
  split; [exact Hq |].
  unfold loop_body.
  rewrite eval_bind,
    (calc_denom_at_zero_latitude M E_E (lat st) _ Hl
       (sq_E_E M pow_E_E_not_inf) pow_E_E_finite).
  rewrite truediv_R_E_KM_one. cbn [bind].
  rewrite eval_bind, (sq_E_E M pow_E_E_not_inf).
  rewrite (math_sin_zero _ Hl). cbn [bind].
  rewrite (truediv_nonzero _ _ Hrz). cbn [bind].
  rewrite (math_atan_zero _ Hq). reflexivity.
Qed.

Lemma while_loop_on_equator (oz rl lat0 : float) :
  is_zero lat0 = true -> is_zero oz = true ->
  is_zero rl = false -> is_nan rl = false ->
  exists l,
    is_zero l = true /\
    eval M (while_loop iteration_cap oz rl (loop_entry lat0))
    = Returned {| lat := l; prev_lat_rad := lat0; c_E := R_E_KM;
                  count := 1 |}.
Proof.
  intros Hl Hoz Hrz Hrn.
  destruct (loop_body_on_equator oz rl (loop_entry lat0) Hl Hoz Hrz Hrn)
    as (l & Zl & Eb).
  exists l. split; [exact Zl |].
  unfold iteration_cap. rewrite while_loop_entry, eval_bind, Eb.
  cbn [loop_entry lat count Z.add].
  apply f_equal with (f := fun r => r). rewrite loop_exit; [reflexivity |].
  unfold loop_test. cbn [lat prev_lat_rad count].
  rewrite (is_zero_not_nan _ Hl).
  rewrite (zero_within_tolerance _ (sub_zeros _ _ Zl Hl)). reflexivity.
Qed.

End Equator.

(** X5.  Latitude zero is a fixed point of the iteration over the
    equatorial plane.  When the initial guess and o_z_km are zeros,
    r_lon_km is a number other than zero and R_E_KM times the square of
    E_E came out finite, the loop returns after exactly one pass, with a
    latitude that is again a zero, the guess as previous iterate, and
    c_E = R_E_KM. *)
Theorem equator_is_a_fixed_point
  (M : libm) (o_z_km r_lon_km lat0 : float) :
  is_finite (mul R_E_KM (M (Pow E_E two))) = true ->
  is_zero lat0 = true ->
  is_zero o_z_km = true ->
  is_zero r_lon_km = false ->
  is_nan r_lon_km = false ->
  exists st,
    eval M (while_loop iteration_cap o_z_km r_lon_km (loop_entry lat0))
    = Returned st /\
    is_zero (lat st) = true /\
    prev_lat_rad st = lat0 /\
    c_E st = R_E_KM /\
    count st = 1.
Proof.
  intros Hpow Hl Hoz Hrz Hrn.
  destruct (while_loop_on_equator M Hpow o_z_km r_lon_km lat0 Hl Hoz Hrz Hrn)
    as (l & Zl & E).
  eexists. split; [exact E |]. cbn [lat prev_lat_rad c_E count].
  split; [exact Zl |]. split; [reflexivity |]. split; reflexivity.
Qed.

Lemma equator_is_a_fixed_point_at_station :
  is_finite (mul R_E_KM (small_angle (Pow E_E two))) = true /\
  is_zero zero = true /\
  is_zero R_E_KM = false /\
  is_nan R_E_KM = false /\
  exists st,
    eval small_angle (while_loop iteration_cap zero R_E_KM (loop_entry zero))
    = Returned st /\
    is_zero (lat st) = true /\
    prev_lat_rad st = zero /\
    c_E st = R_E_KM /\
    count st = 1.
Proof.
  assert (H1 : is_finite (mul R_E_KM (small_angle (Pow E_E two))) = true)
    by (vm_compute; reflexivity).
  assert (H2 : is_zero R_E_KM = false) by (vm_compute; reflexivity).
  assert (H3 : is_nan R_E_KM = false) by (vm_compute; reflexivity).
  split; [exact H1 |]. split; [reflexivity |].
  split; [exact H2 |]. split; [exact H3 |].
  exact (equator_is_a_fixed_point small_angle zero R_E_KM zero
           H1 eq_refl eq_refl H2 H3).
Defined.

(** X6.  GeodeticSolver on an origin in the equatorial plane, when the
    difference's z component is a zero too (lines 68-87).  If o_z_km and
    z_vec_km are zeros, the norm of the origin and r_lon_km come out as
    numbers other than zero, atan2 returns, and R_E_KM times the square of
    E_E came out finite, then the solver returns a latitude that is a
    zero, the longitude of atan2(o_y_km, o_x_km), and the height
    r_lon_km / 1.0 - R_E_KM. *)
Theorem solve_in_equatorial_plane
  (M : libm) (origin : EcefVector) (z_vec_km lon n r : float) :
  is_finite (mul R_E_KM (M (Pow E_E two))) = true ->
  is_zero (z_km origin) = true ->
  is_zero z_vec_km = true ->
  eval M (math_atan2 (y_km origin) (x_km origin)) = Returned lon ->
  eval M (origin_norm origin) = Returned n ->
  is_zero n = false -> is_nan n = false ->
  eval M (polar_distance origin) = Returned r ->
  is_zero r = false -> is_nan r = false ->
  exists pose,
    eval M (solve origin z_vec_km) = Returned pose /\
    is_zero (lat_rad pose) = true /\
    lon_rad pose = lon /\
    hae_km pose = sub (div r one) R_E_KM.
Proof.
  intros Hpow Hoz Hzv Elon En Hnz Hnn Er Hrz Hrn.
  assert (Z0 : is_zero (div z_vec_km n) = true) by now apply div_zero_l.
  destruct (while_loop_on_equator M Hpow (z_km origin) r (div z_vec_km n)
              Z0 Hoz Hrz Hrn) as (l & Zl & Eloop).
  eexists. split.
  - unfold solve. cbv zeta. rewrite eval_bind, Elon.
    unfold initial_latitude. rewrite !eval_bind, En.
    rewrite (truediv_nonzero _ _ Hnz). cbn [bind].
    rewrite (math_asin_zero _ Z0). cbn [eval].
    rewrite eval_bind, Er, eval_bind, Eloop. cbn [lat c_E].
    rewrite (math_cos_zero _ Zl). cbn [bind].
    assert (E1 : truediv r one = Ret (div r one))
      by (apply truediv_nonzero; vm_compute; reflexivity).
    rewrite E1. reflexivity.
  - cbn [lat_rad lon_rad hae_km]. split; [exact Zl |]. split; reflexivity.
Qed.

Lemma solve_in_equatorial_plane_at_station :
  exists lon n r pose,
    is_finite (mul R_E_KM (small_angle (Pow E_E two))) = true /\
    is_zero (z_km station) = true /\
    is_zero (z_km (difference station station)) = true /\
    eval small_angle (math_atan2 (y_km station) (x_km station))
    = Returned lon /\
    eval small_angle (origin_norm station) = Returned n /\
    is_zero n = false /\ is_nan n = false /\
    eval small_angle (polar_distance station) = Returned r /\
    is_zero r = false /\ is_nan r = false /\
    eval small_angle (solve station (z_km (difference station station)))
    = Returned pose /\
    is_zero (lat_rad pose) = true /\
    lon_rad pose = lon /\
    hae_km pose = sub (div r one) R_E_KM.
Proof.
  assert (H1 : is_finite (mul R_E_KM (small_angle (Pow E_E two))) = true)
    by (vm_compute; reflexivity).
  assert (Elon : eval small_angle
                   (math_atan2 (y_km station) (x_km station))
                 = Returned zero) by (vm_compute; reflexivity).
  assert (En : eval small_angle (origin_norm station) = Returned R_E_KM)
    by (vm_compute; reflexivity).
  assert (Er : eval small_angle (polar_distance station) = Returned R_E_KM)
    by (vm_compute; reflexivity).
  assert (Hz : is_zero R_E_KM = false) by (vm_compute; reflexivity).
  assert (Hn : is_nan R_E_KM = false) by (vm_compute; reflexivity).
  assert (Hd : is_zero (z_km (difference station station)) = true)
    by (vm_compute; reflexivity).
  destruct (solve_in_equatorial_plane small_angle station
              (z_km (difference station station)) zero R_E_KM R_E_KM
              H1 eq_refl Hd Elon En Hz Hn Er Hz Hn)
    as (pose & E & Hlat & Hlon & Hhae).
  exists zero, R_E_KM, R_E_KM, pose.
  repeat (split; [assumption || reflexivity |]). exact Hhae.
Defined.

(** ** NaN in the origin *)

Section NanPropagation.

Variable M : libm.

Lemma sq_of_nan (x : float) : is_nan x = true -> sq x = Ret nan.
Proof. destruct x; try discriminate. reflexivity. Qed.

Lemma sq_outcome (x : float) :
  (exists v, eval M (sq x) = Returned v) \/
  eval M (sq x) = Uncaught OverflowError.
Proof.
  unfold sq.
  destruct (is_nan x); [left; eexists; reflexivity |].
  destruct (is_inf x); [left; eexists; reflexivity |].
  destruct (eqb x zero); [left; eexists; reflexivity |].
  match goal with
  | |- context [if ?b then Ret one else _] => destruct b
  end; [left; eexists; reflexivity |].
  cbn [eval].
  match goal with
  | |- context [is_inf ?r] => destruct (is_inf r)
  end; [right; reflexivity | left; eexists; reflexivity].
Qed.

Lemma add_nan_l (x : float) : add nan x = nan.
Proof. reflexivity. Qed.

Lemma add_nan_r (x : float) : add x nan = nan.
Proof. now destruct x. Qed.

Lemma math_sqrt_nan : math_sqrt nan = Ret nan.
Proof. reflexivity. Qed.

Lemma truediv_by_nan (a : float) : truediv a nan = Ret nan.
Proof. now destruct a. Qed.

Lemma math_atan2_nan (y x : float) :
  is_nan x = true \/ is_nan y = true -> math_atan2 y x = Ret nan.
Proof.
  destruct x, y; intros [H | H]; try discriminate H; reflexivity.
Qed.

Lemma origin_norm_nan (o : EcefVector) :
  is_nan (x_km o) = true \/ is_nan (y_km o) = true ->
  eval M (origin_norm o) = Returned nan \/
  eval M (origin_norm o) = Uncaught OverflowError.
Proof.
  unfold origin_norm. intros [H | H].
  - rewrite (sq_of_nan _ H). cbn [bind].
    rewrite eval_bind.
    destruct (sq_outcome (y_km o)) as [[b Eb] | Eb]; rewrite Eb;
      [| right; reflexivity].
    rewrite eval_bind.
    destruct (sq_outcome (z_km o)) as [[c Ec] | Ec]; rewrite Ec;
      [| right; reflexivity].
    left. rewrite !add_nan_l, math_sqrt_nan. reflexivity.
  - rewrite eval_bind.
    destruct (sq_outcome (x_km o)) as [[a Ea] | Ea]; rewrite Ea;
      [| right; reflexivity].
    rewrite (sq_of_nan _ H). cbn [bind].
    rewrite eval_bind.
    destruct (sq_outcome (z_km o)) as [[c Ec] | Ec]; rewrite Ec;
      [| right; reflexivity].
    left. rewrite add_nan_r, add_nan_l, math_sqrt_nan. reflexivity.
Qed.

Lemma polar_distance_nan (o : EcefVector) :
  is_nan (x_km o) = true \/ is_nan (y_km o) = true ->
  eval M (polar_distance o) = Returned nan \/
  eval M (polar_distance o) = Uncaught OverflowError.
Proof.
  unfold polar_distance. intros [H | H].
  - rewrite (sq_of_nan _ H). cbn [bind].
    rewrite eval_bind.
    destruct (sq_outcome (y_km o)) as [[b Eb] | Eb]; rewrite Eb;
      [| right; reflexivity].
    left. rewrite add_nan_l, math_sqrt_nan. reflexivity.
  - rewrite eval_bind.
    destruct (sq_outcome (x_km o)) as [[a Ea] | Ea]; rewrite Ea;
      [| right; reflexivity].
    rewrite (sq_of_nan _ H). cbn [bind].
    left. rewrite add_nan_r, math_sqrt_nan. reflexivity.
Qed.

Lemma initial_latitude_nan (o : EcefVector) (zv : float) :
  is_nan (x_km o) = true \/ is_nan (y_km o) = true ->
  eval M (initial_latitude o zv) = Returned nan \/
  eval M (initial_latitude o zv) = Uncaught OverflowError.
Proof.
  intros H. unfold initial_latitude. rewrite eval_bind.
  destruct (origin_norm_nan o H) as [E | E]; rewrite E;
    [| right; reflexivity].
  left. rewrite truediv_by_nan. reflexivity.
Qed.

Lemma sq_E_E_overflow :
  is_inf (M (Pow E_E two)) = true ->
  eval M (sq E_E) = Uncaught OverflowError.
Proof.
  intros H.
  assert (E : sq E_E
              = Libm (Pow E_E two)
                  (fun ix => if is_inf ix then Raise OverflowError
                             else Ret ix))
    by reflexivity.
  rewrite E. cbn [eval]. now rewrite H.
Qed.

Lemma loop_body_nan_any (oz prev c : float) (k : Z) :
  is_inf (M (Pow E_E two)) = false ->
  eval M (loop_body oz nan
            {| lat := nan; prev_lat_rad := prev; c_E := c; count := k |})
  = Returned {| lat := nan; prev_lat_rad := nan; c_E := nan; count := k + 1 |}.
Proof.
  intros H. unfold loop_body. cbn [lat count].
  rewrite eval_bind, (calc_denom_nan M H).
  rewrite eval_bind. cbn [truediv eqb SFeqb SFcompare nan eval].
  rewrite eval_bind, (sq_E_E M H).
  destruct (M (Pow E_E two)); destruct oz; reflexivity.
Qed.

Lemma while_loop_nan_any (oz : float) :
  eval M (while_loop iteration_cap oz nan (loop_entry nan))
  = Returned {| lat := nan; prev_lat_rad := nan; c_E := nan; count := 5 |} \/
  eval M (while_loop iteration_cap oz nan (loop_entry nan))
  = Uncaught OverflowError.
Proof.
  destruct (is_inf (M (Pow E_E two))) eqn:H.
  - right. unfold iteration_cap. rewrite while_loop_entry, eval_bind.
    unfold loop_body, calc_denom.
    rewrite !eval_bind, (sq_E_E_overflow H). reflexivity.
  - left. unfold iteration_cap, loop_entry.
    do 5 (rewrite loop_step by reflexivity;
          rewrite eval_bind, (loop_body_nan_any _ _ _ _ H);
          cbn [Z.add Pos.add Pos.succ]).
    reflexivity.
Qed.

Lemma solve_nan (o : EcefVector) (zv : float) :
  is_nan (x_km o) = true \/ is_nan (y_km o) = true ->
  eval M (solve o zv) = Returned nan_pose \/
  eval M (solve o zv) = Uncaught OverflowError.
Proof.
  intros H. unfold solve. cbv zeta.
  rewrite (math_atan2_nan _ _ H). cbn [bind].
  rewrite eval_bind.
  destruct (initial_latitude_nan o zv H) as [E | E]; rewrite E;
    [| right; reflexivity].
  rewrite eval_bind.
  destruct (polar_distance_nan o H) as [Er | Er]; rewrite Er;
    [| right; reflexivity].
  rewrite eval_bind.
  destruct (while_loop_nan_any (z_km o)) as [El | El]; rewrite El;
    [| right; reflexivity].
  left. reflexivity.
Qed.

Lemma rotate_nan_pose (d : EcefVector) :
  rotate d nan_pose
  = Ret {| s_km := nan; e_km := nan; sez_z_km := nan |}.
Proof. destruct d as [x y z]. destruct x, y, z; reflexivity. Qed.

End NanPropagation.

(** X7.  A NaN in o_x_km or o_y_km goes through the whole program: it
    prints nan three times and exits with status 0, unless a square
    overflows in the C library's pow, in which case it is an OverflowError
    and prints nothing.  No other ending is possible, whatever the other
    four arguments. *)
Theorem nan_origin_prints_nan (M : libm) (origin target : EcefVector) :
  is_nan (x_km origin) = true \/ is_nan (y_km origin) = true ->
  (eval M (main (argv_of origin target)) = Returned tt /\
   output M (main (argv_of origin target))
   = [Repr nan; Repr nan; Repr nan]) \/
  (eval M (main (argv_of origin target)) = Uncaught OverflowError /\
   output M (main (argv_of origin target)) = []).
Proof.
  intros H. rewrite main_on_numeric_arguments.
  rewrite eval_bind, output_bind.
  pose proof (quiet_ecef_to_sez M origin target) as Hq.
  assert (E : eval M (ecef_to_sez origin target)
              = Returned {| s_km := nan; e_km := nan; sez_z_km := nan |} \/
              eval M (ecef_to_sez origin target) = Uncaught OverflowError).
  { unfold ecef_to_sez. cbv zeta. rewrite eval_bind.
    destruct (solve_nan M origin (z_km (difference target origin)) H)
      as [E | E]; rewrite E; [left | right; reflexivity].
    rewrite rotate_nan_pose. reflexivity. }
  destruct E as [E | E].
  - left. rewrite E, (quiet_returned_silent M _ _ Hq E). split; reflexivity.
  - right. rewrite E.
    destruct Hq as [(a & Ea & _) | (e & _ & _ & O)]; [congruence |].
    rewrite O. split; reflexivity.
Qed.

Lemma nan_origin_prints_nan_example :
  (is_nan (x_km nan_vector) = true \/ is_nan (y_km nan_vector) = true) /\
  ((eval small_angle (main (argv_of nan_vector station)) = Returned tt /\
    output small_angle (main (argv_of nan_vector station))
    = [Repr nan; Repr nan; Repr nan]) \/
   (eval small_angle (main (argv_of nan_vector station))
    = Uncaught OverflowError /\
    output small_angle (main (argv_of nan_vector station)) = [])).
Proof.
  split; [left; reflexivity |].
  apply (nan_origin_prints_nan small_angle nan_vector station).
  left. reflexivity.
Defined.

(** ** The origin as its own target *)

(** X10.  With a finite origin given twice, as origin and as target, the
    difference vector is zero and so is the result: when the solver returns
    a pose of finite latitude and longitude, and the C library's sine and
    cosine are finite at finite angles, the program prints three zeros
    (each 0.0 or -0.0) and exits with status 0. *)
Theorem origin_as_target_prints_zeros
  (M : libm) (origin : EcefVector) (pose : GeodeticPose) :
  trig_finite M ->
  finite_vector origin = true ->
  eval M (solve origin (z_km (difference origin origin))) = Returned pose ->
  is_finite (lat_rad pose) = true ->
  is_finite (lon_rad pose) = true ->
  exists v,
    eval M (ecef_to_sez origin origin) = Returned v /\
    is_zero (s_km v) = true /\
    is_zero (e_km v) = true /\
    is_zero (sez_z_km v) = true /\
    eval M (main (argv_of origin origin)) = Returned tt /\
    output M (main (argv_of origin origin))
    = [Repr (s_km v); Repr (e_km v); Repr (sez_z_km v)].
Proof.
  intros HM Hfin Esolve Hlat Hlon.
  unfold finite_vector in Hfin.
  apply andb_prop in Hfin as [Hfin Hz]. apply andb_prop in Hfin as [Hx Hy].
  destruct (math_cos_finite M _ HM Hlon) as (cl & Ecl & Fcl).
  destruct (math_sin_finite M _ HM Hlon) as (sl & Esl & Fsl).
  destruct (math_sin_finite M _ HM Hlat) as (sp & Esp & Fsp).
  destruct (math_cos_finite M _ HM Hlat) as (cp & Ecp & Fcp).
  destruct (rotate_outcome M (difference origin origin) pose)
    as [(cl' & sl' & sp' & cp' & Ecl' & Esl' & Esp' & Ecp' & Erot)
       | (_ & [H | [H | [H | H]]])]; try congruence.
  assert (cl' = cl) by congruence. assert (sl' = sl) by congruence.
  assert (sp' = sp) by congruence. assert (cp' = cp) by congruence.
  subst cl' sl' sp' cp'. clear Ecl' Esl' Esp' Ecp'.
  assert (Ev : eval M (ecef_to_sez origin origin)
               = eval M (rotate (difference origin origin) pose)).
  { unfold ecef_to_sez. cbv zeta. now rewrite eval_bind, Esolve. }
  rewrite Erot in Ev.
  eexists. split; [exact Ev |]. cbn [s_km e_km sez_z_km].
  unfold difference. cbn [x_km y_km z_km].
  rewrite !(sub_diag _ Hx), !(sub_diag _ Hy), !(sub_diag _ Hz).
  assert (Z0 : is_zero zero = true) by reflexivity.
  split; [| split; [| split]].
  - apply sub_zeros; [apply add_zeros |]; try now apply mul_zero_l.
    apply mul_zero_l; trivial. now apply mul_zero_l.
  - apply add_zeros; apply mul_zero_l; trivial.
    now rewrite is_finite_neg.
  - apply add_zeros; [| now apply mul_zero_l].
    apply mul_zero_l; trivial. apply add_zeros; now apply mul_zero_l.
  - rewrite main_on_numeric_arguments, eval_bind, output_bind.
    pose proof (quiet_returned_silent M _ _
                  (quiet_ecef_to_sez M origin origin) Ev) as O.
    rewrite Ev, O. unfold difference. cbn [s_km e_km sez_z_km x_km y_km z_km].
    rewrite !(sub_diag _ Hx), !(sub_diag _ Hy), !(sub_diag _ Hz).
    split; reflexivity.
Qed.

Lemma station_as_target_prints_zeros :
  exists pose,
    trig_finite small_angle /\
    finite_vector station = true /\
    eval small_angle (solve station (z_km (difference station station)))
    = Returned pose /\
    is_finite (lat_rad pose) = true /\
    is_finite (lon_rad pose) = true /\
    exists v,
      eval small_angle (ecef_to_sez station station) = Returned v /\
      is_zero (s_km v) = true /\
      is_zero (e_km v) = true /\
      is_zero (sez_z_km v) = true /\
      eval small_angle (main (argv_of station station)) = Returned tt /\
      output small_angle (main (argv_of station station))
      = [Repr (s_km v); Repr (e_km v); Repr (sez_z_km v)].
Proof.
  eexists.
  split; [exact small_angle_trig_finite |].
  split; [vm_compute; reflexivity |].
  assert (E : eval small_angle
                (solve station (z_km (difference station station)))
              = Returned {| lat_rad := zero; lon_rad := zero;
                            hae_km := zero |})
    by (vm_compute; reflexivity).
  split; [exact E |]. split; [reflexivity |]. split; [reflexivity |].
  exact (origin_as_target_prints_zeros small_angle station _
           small_angle_trig_finite eq_refl E eq_refl eq_refl).
Defined.

(** ** Operations that do not make a NaN *)

Section Numbers.

Lemma shr_1_nonneg (mrs : shr_record) :
  0 <= shr_m mrs -> 0 <= shr_m (shr_1 mrs).
Proof.
  destruct mrs as [m r s]. cbn [shr_m]. intros H.
  destruct m as [| p | p]; [| destruct p | lia]; cbn; lia.
Qed.

Lemma iter_shr_1_nonneg (p : positive) :
  forall mrs, 0 <= shr_m mrs -> 0 <= shr_m (iter_pos shr_1 p mrs).
Proof.
  induction p as [p IH | p IH |]; intros mrs H; cbn [iter_pos].
  - apply IH, IH, shr_1_nonneg, H.
  - apply IH, IH, H.
  - apply shr_1_nonneg, H.
Qed.

Lemma shr_fexp_nonneg (m e : Z) (l : location) :
  0 <= m -> 0 <= shr_m (fst (shr_fexp prec emax m e l)).
Proof.
  intros H. unfold shr_fexp, shr.
  assert (H0 : 0 <= shr_m (shr_record_of_loc m l))
    by (destruct l as [| []]; exact H).
  destruct (fexp prec emax (Zdigits2 m + e) - e) as [| p | p];
    cbn [fst]; trivial.
  apply iter_shr_1_nonneg, H0.
Qed.

Lemma round_nearest_even_nonneg (m : Z) (l : location) :
  0 <= m -> 0 <= round_nearest_even m l.
Proof.
  intros H. destruct l as [| []]; cbn [round_nearest_even]; try lia.
  destruct (Z.even m); lia.
Qed.

Lemma binary_round_aux_number (sx : bool) (mx ex : Z) (lx : location) :
  0 <= mx -> is_nan (binary_round_aux prec emax sx mx ex lx) = false.
Proof.
  intros H. unfold binary_round_aux.
  pose proof (shr_fexp_nonneg mx ex lx H) as H1.
  destruct (shr_fexp prec emax mx ex lx) as [mrs1 e1]. cbn [fst] in H1.
  pose proof (shr_fexp_nonneg _ e1 loc_Exact
                (round_nearest_even_nonneg _ (loc_of_shr_record mrs1) H1))
    as H2.
  destruct (shr_fexp prec emax
              (round_nearest_even (shr_m mrs1) (loc_of_shr_record mrs1))
              e1 loc_Exact) as [mrs2 e2].
  cbn [fst] in H2.
  destruct (shr_m mrs2) as [| p | p]; [reflexivity | | lia].
  destruct (e2 <=? emax - prec); reflexivity.
Qed.

Lemma binary_normalize_number (m e : Z) (szero : bool) :
  is_nan (binary_normalize prec emax m e szero) = false.
Proof.
  destruct m as [| p | p]; [reflexivity | |];
    unfold binary_normalize, binary_round;
    match goal with
    | |- context [shl_align ?a ?b ?c] => destruct (shl_align a b c)
    end; apply binary_round_aux_number; lia.
Qed.

Lemma add_number (x y : float) :
  is_finite x = true -> is_nan y = false -> is_nan (add x y) = false.
Proof.
  destruct x as [sx | sx | | sx mx ex], y as [sy | sy | | sy my ey];
    intros Hx Hy; try discriminate Hx; try discriminate Hy;
    try reflexivity; try (destruct sx, sy; reflexivity).
  unfold add, SFadd. apply binary_normalize_number.
Qed.

Lemma sub_number (x y : float) :
  is_finite x = true -> is_nan y = false -> is_nan (sub x y) = false.
Proof.
  destruct x as [sx | sx | | sx mx ex], y as [sy | sy | | sy my ey];
    intros Hx Hy; try discriminate Hx; try discriminate Hy;
    try reflexivity; try (destruct sx, sy; reflexivity).
  unfold sub, SFsub. apply binary_normalize_number.
Qed.

Lemma mul_number (x y : float) :
  is_nan x = false -> is_nan y = false ->
  (is_inf x = true -> is_zero y = false) ->
  (is_zero x = true -> is_inf y = false) ->
  is_nan (mul x y) = false.
Proof.
  destruct x as [sx | sx | | sx mx ex], y as [sy | sy | | sy my ey];
    intros Hx Hy H1 H2; try discriminate Hx; try discriminate Hy;
    try reflexivity.
  - discriminate (H2 eq_refl).
  - discriminate (H1 eq_refl).
  - unfold mul, SFmul. apply binary_round_aux_number. lia.
Qed.

Lemma mul_finite_number (x y : float) :
  is_finite x = true -> is_finite y = true -> is_nan (mul x y) = false.
Proof.
  intros Hx Hy. apply mul_number.
  - now destruct x.
  - now destruct y.
  - intros H. destruct x; discriminate.
  - intros _. now destruct y.
Qed.

Lemma div_core_nonneg (mx my : positive) (ex ey : Z) :
  0 <= fst (fst (SFdiv_core_binary prec emax (Zpos mx) ex (Zpos my) ey)).
Proof.
  unfold SFdiv_core_binary.
  set (s := ex - ey -
            Z.min (fexp prec emax
                     (Zdigits2 (Zpos mx) + ex - (Zdigits2 (Zpos my) + ey)))
                  (ex - ey)).
  set (m' := match s with
             | Z0 => Zpos mx
             | Zpos _ => Z.shiftl (Zpos mx) s
             | Zneg _ => 0
             end).
  assert (Hm : 0 <= m').
  { unfold m'. destruct s as [| p | p]; try lia.
    apply Z.shiftl_nonneg. lia. }
  pose proof (Z.div_pos m' (Zpos my) Hm ltac:(lia)) as Hq.
  unfold Z.div in Hq.
  destruct (Z.div_eucl m' (Zpos my)) as [q r]. exact Hq.
Qed.

Lemma div_number (x y : float) :
  is_nan x = false -> is_nan y = false -> is_zero y = false ->
  (is_inf x = true -> is_inf y = false) ->
  is_nan (div x y) = false.
Proof.
  destruct x as [sx | sx | | sx mx ex], y as [sy | sy | | sy my ey];
    intros Hx Hy Hz Hi; try discriminate Hx; try discriminate Hy;
    try discriminate Hz; try reflexivity.
  - discriminate (Hi eq_refl).
  - unfold div, SFdiv.
    pose proof (div_core_nonneg mx my ex ey) as Hq.
    destruct (SFdiv_core_binary prec emax (Zpos mx) ex (Zpos my) ey)
      as [[mz ez] lz].
    apply binary_round_aux_number. exact Hq.
Qed.

Lemma div_finite_inf (x y : float) :
  is_finite x = true -> is_inf y = true -> is_zero (div x y) = true.
Proof.
  destruct x as [sx | sx | | sx mx ex], y as [sy | sy | | sy my ey];
    intros Hx Hy; try discriminate Hx; try discriminate Hy; reflexivity.
Qed.

Lemma add_finite_zero (x y : float) :
  is_finite x = true -> is_zero y = true -> is_finite (add x y) = true.
Proof.
  intros Hx [s ->]%is_zero_spec.
  destruct x as [sx | sx | | sx mx ex]; try discriminate Hx;
    [now destruct sx, s | reflexivity].
Qed.

Lemma add_inf_finite (y : float) :
  is_finite y = true -> add inf y = inf.
Proof. intros Hy. destruct y; try discriminate Hy; reflexivity. Qed.

Lemma number_not_inf_finite (x : float) :
  is_nan x = false -> is_inf x = false -> is_finite x = true.
Proof. destruct x; intros H1 H2; try discriminate; reflexivity. Qed.

Lemma finite_number (x : float) : is_finite x = true -> is_nan x = false.
Proof. now destruct x. Qed.

Lemma finite_not_inf (x : float) : is_finite x = true -> is_inf x = false.
Proof. now destruct x. Qed.

Lemma within_number (bound x : float) :
  within bound x -> is_nan x = false -> leb (fabs x) bound = true.
Proof. intros [H | H] Hn; [congruence | exact H]. Qed.

Lemma leb_finite_bound (bound x : float) :
  is_finite bound = true -> leb (fabs x) bound = true -> is_finite x = true.
Proof.
  destruct x as [sx | sx | | sx mx ex]; try reflexivity;
    destruct bound as [sb | sb | | sb mb eb]; intros Hb H;
    try discriminate Hb; try discriminate H.
Qed.

Lemma zero_below_half_pi (x : float) :
  is_zero x = true -> leb (fabs x) half_pi = true.
Proof. intros [s ->]%is_zero_spec. vm_compute. reflexivity. Qed.

End Numbers.

(** ** The ranges on a finite origin *)

Section FiniteOrigin.

Variable M : libm.
Hypothesis Hrange : arctangents_in_range M.
Hypothesis Hsq : squares_are_numbers M.
Hypothesis Hpow : is_finite (mul R_E_KM (M (Pow E_E two))) = true.

Lemma zero_is_finite (x : float) : is_zero x = true -> is_finite x = true.
Proof. intros [s ->]%is_zero_spec. reflexivity. Qed.

Lemma add_number_r (x y : float) :
  is_nan x = false -> is_finite y = true -> is_nan (add x y) = false.
Proof.
  destruct x as [sx | sx | | sx mx ex]; intros Hx Hy; try discriminate Hx.
  - apply add_number; [reflexivity | exact (finite_number _ Hy)].
  - destruct y; try discriminate Hy; reflexivity.
  - apply add_number; [reflexivity | exact (finite_number _ Hy)].
Qed.

(** A square that Python returns for a finite number is finite. *)
Lemma sq_returned_finite (x a : float) :
  is_finite x = true -> eval M (sq x) = Returned a -> is_finite a = true.
Proof.
  intros Hx. unfold sq. cbv zeta.
  rewrite (finite_number _ Hx), (finite_not_inf _ Hx).
  destruct (eqb x zero); [cbn [eval]; intros [= <-]; reflexivity |].
  assert (Ha0 : is_finite (if ltb x zero then neg x else x) = true).
  { destruct (ltb x zero); [now rewrite is_finite_neg | exact Hx]. }
  destruct (eqb (if ltb x zero then neg x else x) one);
    [cbn [eval]; intros [= <-]; vm_compute; reflexivity |].
  cbn [eval].
  destruct (is_inf (M (Pow (if ltb x zero then neg x else x) two))) eqn:Hi;
    cbn [eval]; [intros H; discriminate H |].
  intros [= <-]. apply number_not_inf_finite; [apply Hsq, Ha0 | exact Hi].
Qed.

(** What a one-argument [math] function returns is a number on a number
    and finite on a finite number. *)
Lemma math_1_returned (f : float -> py float) (x v : float) :
  answers M f -> eval M (math_1 f x) = Returned v ->
  (is_nan x = false -> is_nan v = false) /\
  (is_finite x = true -> is_finite v = true).
Proof.
  intros Hf E.
  destruct (math_1_outcome M f x Hf) as [(v' & _ & E' & Hn & Hfin) | E'];
    rewrite E' in E; [| discriminate E].
  injection E as <-. split; [| exact Hfin].
  intros Hx. destruct (is_nan v') eqn:Hv; [| reflexivity].
  rewrite (Hn eq_refl) in Hx. discriminate Hx.
Qed.

Lemma math_sqrt_returned_inf (x r : float) :
  eval M (math_sqrt x) = Returned r -> is_inf r = true -> x = inf.
Proof.
  intros E Hr.
  destruct (math_1_returned c_sqrt x r (answers_c_sqrt M) E) as (_ & Hfin).
  destruct x as [s | s | | s m e].
  - rewrite (finite_not_inf _ (Hfin eq_refl)) in Hr. discriminate Hr.
  - destruct s; [| reflexivity].
    assert (H : math_sqrt (S754_infinity true) = Raise ValueError)
      by reflexivity.
    rewrite H in E. discriminate E.
  - assert (H : math_sqrt S754_nan = Ret nan) by reflexivity.
    rewrite H in E. cbn [eval] in E. injection E as <-. discriminate Hr.
  - rewrite (finite_not_inf _ (Hfin eq_refl)) in Hr. discriminate Hr.
Qed.

Lemma math_asin_finite (x v : float) :
  is_nan x = false -> eval M (math_asin x) = Returned v ->
  is_finite v = true.
Proof.
  intros Hx E.
  destruct (math_1_returned c_asin x v (answers_c_asin M) E) as (_ & Hfin).
  destruct x as [s | s | | s m e]; try discriminate Hx.
  - exact (Hfin eq_refl).
  - assert (H : math_asin (S754_infinity s) = Raise ValueError)
      by (destruct s; reflexivity).
    rewrite H in E. discriminate E.
  - exact (Hfin eq_refl).
Qed.

Lemma origin_norm_inversion (o : EcefVector) (n : float) :
  eval M (origin_norm o) = Returned n ->
  exists a b c,
    eval M (sq (x_km o)) = Returned a /\
    eval M (sq (y_km o)) = Returned b /\
    eval M (sq (z_km o)) = Returned c /\
    eval M (math_sqrt (add (add a b) c)) = Returned n.
Proof.
  unfold origin_norm. intros H.
  apply eval_bind_returned in H as (a & Ha & H).
  apply eval_bind_returned in H as (b & Hb & H).
  apply eval_bind_returned in H as (c & Hc & H).
  exists a, b, c. split; [exact Ha |]. split; [exact Hb |].
  split; [exact Hc | exact H].
Qed.

Lemma polar_distance_inversion (o : EcefVector) (r : float) :
  eval M (polar_distance o) = Returned r ->
  exists a b,
    eval M (sq (x_km o)) = Returned a /\
    eval M (sq (y_km o)) = Returned b /\
    eval M (math_sqrt (add a b)) = Returned r.
Proof.
  unfold polar_distance. intros H.
  apply eval_bind_returned in H as (a & Ha & H).
  apply eval_bind_returned in H as (b & Hb & H).
  exists a, b. split; [exact Ha |]. split; [exact Hb | exact H].
Qed.

Lemma calc_denom_inversion (ecc l denom : float) :
  eval M (calc_denom ecc l) = Returned denom ->
  exists a s b,
    eval M (sq ecc) = Returned a /\
    eval M (math_sin l) = Returned s /\
    eval M (sq s) = Returned b /\
    eval M (math_sqrt (sub one (mul a b))) = Returned denom.
Proof.
  unfold calc_denom. intros H.
  apply eval_bind_returned in H as (a & Ha & H).
  apply eval_bind_returned in H as (s & Hs & H).
  apply eval_bind_returned in H as (b & Hb & H).
  exists a, s, b. split; [exact Ha |]. split; [exact Hs |].
  split; [exact Hb | exact H].
Qed.

Section OnAnOrigin.

Variable origin : EcefVector.
Hypothesis Horigin : finite_vector origin = true.

Lemma origin_components :
  is_finite (x_km origin) = true /\ is_finite (y_km origin) = true /\
  is_finite (z_km origin) = true.
Proof.
  pose proof Horigin as H. unfold finite_vector in H.
  apply andb_prop in H as [H Hz]. apply andb_prop in H as [Hx Hy].
  split; [exact Hx |]. split; [exact Hy | exact Hz].
Qed.

Lemma polar_distance_number (r : float) :
  eval M (polar_distance origin) = Returned r -> is_nan r = false.
Proof.
  destruct origin_components as (Hx & Hy & _).
  intros (a & b & Ea & Eb & Er)%polar_distance_inversion.
  apply (proj1 (math_1_returned c_sqrt _ _ (answers_c_sqrt M) Er)).
  apply add_number.
  - exact (sq_returned_finite _ _ Hx Ea).
  - exact (finite_number _ (sq_returned_finite _ _ Hy Eb)).
Qed.

Lemma origin_norm_number (n : float) :
  eval M (origin_norm origin) = Returned n -> is_nan n = false.
Proof.
  destruct origin_components as (Hx & Hy & Hz).
  intros (a & b & c & Ea & Eb & Ec & En)%origin_norm_inversion.
  apply (proj1 (math_1_returned c_sqrt _ _ (answers_c_sqrt M) En)).
  apply add_number_r; [| exact (sq_returned_finite _ _ Hz Ec)].
  apply add_number.
  - exact (sq_returned_finite _ _ Hx Ea).
  - exact (finite_number _ (sq_returned_finite _ _ Hy Eb)).
Qed.

(** When the distance to the axis overflows, so does the norm. *)
Lemma origin_norm_inf (r n : float) :
  eval M (polar_distance origin) = Returned r -> is_inf r = true ->
  eval M (origin_norm origin) = Returned n -> is_inf n = true.
Proof.
  destruct origin_components as (_ & _ & Hz).
  intros (a & b & Ea & Eb & Er)%polar_distance_inversion Hr.
  intros (a' & b' & c & Ea' & Eb' & Ec & En)%origin_norm_inversion.
  rewrite Ea in Ea'. injection Ea' as <-.
  rewrite Eb in Eb'. injection Eb' as <-.
  rewrite (math_sqrt_returned_inf _ _ Er Hr) in En.
  rewrite (add_inf_finite _ (sq_returned_finite _ _ Hz Ec)) in En.
  assert (H : math_sqrt inf = Ret inf) by reflexivity.
  rewrite H in En. cbn [eval] in En. injection En as <-. reflexivity.
Qed.

(** The guess of line 72 is finite, and a zero when r_lon_km is an
    infinity. *)
Lemma initial_latitude_invariant (zv lat0 r : float) :
  is_finite zv = true ->
  eval M (initial_latitude origin zv) = Returned lat0 ->
  eval M (polar_distance origin) = Returned r ->
  is_finite lat0 = true /\ (is_inf r = true -> is_zero lat0 = true).
Proof.
  intros Hzv E Er. unfold initial_latitude in E.
  apply eval_bind_returned in E as (n & En & E).
  apply eval_bind_returned in E as (q & Eq & E).
  apply truediv_returned in Eq as (Hnz & ->).
  pose proof (origin_norm_number _ En) as Nn.
  split.
  - apply (math_asin_finite _ _ (div_number _ _ (finite_number _ Hzv) Nn Hnz
             (fun H => False_ind _ (eq_true_false_abs _ H
                                      (finite_not_inf _ Hzv))))
             E).
  - intros Hr.
    pose proof (div_finite_inf _ _ Hzv (origin_norm_inf _ _ Er Hr En)) as Zq.
    rewrite (math_asin_zero _ Zq) in E. cbn [eval] in E.
    injection E as <-. exact Zq.
Qed.

End OnAnOrigin.

Lemma radius_at_unit_denominator (a b denom : float) :
  is_zero (mul a b) = true ->
  eval M (math_sqrt (sub one (mul a b))) = Returned denom ->
  div R_E_KM denom = R_E_KM.
Proof.
  intros Hz E. rewrite (sub_one_zero _ Hz), math_sqrt_one in E.
  cbn [eval] in E. injection E as <-. vm_compute. reflexivity.
Qed.

(** One pass keeps the latitude finite, keeps it a zero when r_lon_km is an
    infinity, and leaves it within the range of the arctangent. *)
Lemma loop_body_keeps_numbers (oz rl : float) (st st' : loop_state) :
  is_finite oz = true -> is_nan rl = false ->
  is_finite (lat st) = true /\ (is_inf rl = true -> is_zero (lat st) = true) ->
  eval M (loop_body oz rl st) = Returned st' ->
  (is_finite (lat st') = true /\
   (is_inf rl = true -> is_zero (lat st') = true)) /\
  leb (fabs (lat st')) half_pi = true.
Proof.
  intros Hoz Hrl (Hlat & Hinf) Hb.
  apply loop_body_inversion in Hb
    as (denom & e2 & s & Hd & Hdz & He & Hs & Hrz & _ & _ & _ & Hl).
  rewrite (sq_E_E M (pow_E_E_not_inf M Hpow)) in He. injection He as <-.
  pose proof (pow_E_E_finite M Hpow) as Fa.
  assert (Fs : is_finite s = true)
    by exact (proj2 (math_1_returned c_sin _ _ (answers_c_sin M) Hs) Hlat).
  apply calc_denom_inversion in Hd as (a' & s' & b & Ea & Es & Eb & Esq).
  rewrite (sq_E_E M (pow_E_E_not_inf M Hpow)) in Ea. injection Ea as <-.
  rewrite Hs in Es. injection Es as <-.
  pose proof (sq_returned_finite _ _ Fs Eb) as Fb.
  assert (Nd : is_nan denom = false).
  { apply (proj1 (math_1_returned c_sqrt _ _ (answers_c_sqrt M) Esq)).
    apply sub_number; [vm_compute; reflexivity |].
    exact (mul_finite_number _ _ Fa Fb). }
  assert (Nc : is_nan (div R_E_KM denom) = false).
  { apply div_number; [vm_compute; reflexivity | exact Nd | exact Hdz |].
    intros H. vm_compute in H. discriminate H. }
  assert (Hunit : is_zero (M (Pow E_E two)) = true \/ is_zero s = true ->
                  div R_E_KM denom = R_E_KM).
  { intros H. apply (radius_at_unit_denominator (M (Pow E_E two)) b denom);
      [| exact Esq].
    destruct H as [H | H].
    - exact (mul_zero_l _ _ H Fb).
    - apply mul_zero_r; [exact Fa |].
      rewrite (sq_zero _ H) in Eb. cbn [eval] in Eb.
      injection Eb as <-. reflexivity. }
  assert (N1 : is_nan (mul (div R_E_KM denom) (M (Pow E_E two))) = false).
  { apply mul_number;
      [exact Nc | exact (finite_number _ Fa) |
       | intros _; exact (finite_not_inf _ Fa)].
    intros Hci. destruct (is_zero (M (Pow E_E two))) eqn:Za; [| reflexivity].
    rewrite (Hunit (or_introl eq_refl)) in Hci.
    vm_compute in Hci. discriminate Hci. }
  assert (N2 : is_nan (mul (mul (div R_E_KM denom) (M (Pow E_E two))) s)
               = false).
  { apply mul_number;
      [exact N1 | exact (finite_number _ Fs) |
       | intros _; exact (finite_not_inf _ Fs)].
    intros Hmi. destruct (is_zero s) eqn:Zs; [| reflexivity].
    rewrite (Hunit (or_intror eq_refl)) in Hmi.
    rewrite (finite_not_inf _ Hpow) in Hmi. discriminate Hmi. }
  pose proof (add_number _ _ Hoz N2) as Nn.
  destruct (is_inf rl) eqn:Irl.
  - pose proof (Hinf eq_refl) as Zl.
    rewrite (math_sin_zero _ Zl) in Hs. cbn [eval] in Hs.
    injection Hs as <-.
    rewrite (Hunit (or_intror Zl)) in Hl.
    assert (Zq : is_zero
                   (div (add oz (mul (mul R_E_KM (M (Pow E_E two))) (lat st)))
                        rl) = true).
    { apply div_finite_inf; [| exact Irl].
      apply add_finite_zero; [exact Hoz |].
      exact (mul_zero_r _ _ Hpow Zl). }
    rewrite (math_atan_zero _ Zq) in Hl. cbn [eval] in Hl.
    injection Hl as Hl. rewrite <- Hl.
    split; [split; [exact (zero_is_finite _ Zq) | intros _; exact Zq] |].
    exact (zero_below_half_pi _ Zq).
  - assert (Nq : is_nan
                   (div (add oz
                           (mul (mul (div R_E_KM denom) (M (Pow E_E two))) s))
                        rl) = false).
    { apply div_number; [exact Nn | exact Hrl | exact Hrz |].
      intros _. exact Irl. }
    pose proof (proj1 (math_1_returned c_atan _ _ (answers_c_atan M) Hl) Nq)
      as Nl.
    pose proof (within_number _ _ (math_atan_within M Hrange _ _ Hl) Nl)
      as Hle.
    split; [split |].
    + apply (leb_finite_bound half_pi); [vm_compute; reflexivity | exact Hle].
    + intros H. discriminate H.
    + exact Hle.
Qed.

(** An invariant of the latitude that every pass keeps, with something it
    establishes, gives the latter when the loop returns after a pass. *)
Lemma while_loop_invariant (I G : float -> Prop) (oz rl : float) :
  (forall st st',
     I (lat st) -> eval M (loop_body oz rl st) = Returned st' ->
     I (lat st') /\ G (lat st')) ->
  forall fuel st st',
    I (lat st) -> loop_test st = true \/ G (lat st) ->
    eval M (while_loop fuel oz rl st) = Returned st' ->
    G (lat st').
Proof.
  intros Hbody. induction fuel as [| fuel IH]; intros st st' HI Hst.
  - cbn [while_loop]. destruct (loop_test st) eqn:Ht;
      cbn [eval]; [intros H; discriminate H |].
    intros [= <-]. destruct Hst as [Hst | Hst];
                     [discriminate Hst | exact Hst].
  - cbn [while_loop]. destruct (loop_test st) eqn:Ht.
    + intros (st1 & Hb & Hrest)%eval_bind_returned.
      destruct (Hbody _ _ HI Hb) as (HI1 & HG1).
      exact (IH st1 st' HI1 (or_intror HG1) Hrest).
    + cbn [eval]. intros [= <-].
      destruct Hst as [Hst | Hst];
        [discriminate Hst | exact Hst].
Qed.

Lemma math_atan2_number (y x l : float) :
  is_nan y = false -> is_nan x = false ->
  eval M (math_atan2 y x) = Returned l -> is_nan l = false.
Proof.
  intros Hy Hx. unfold math_atan2, math_2. rewrite eval_bind.
  destruct (m_atan2_within M Hrange y x) as (v & Ev & _). rewrite Ev.
  rewrite Hy, Hx. cbn [negb]. rewrite !andb_true_r.
  destruct (is_nan v) eqn:Hv; [cbn [eval]; intros H; discriminate H |].
  destruct (is_inf v && is_finite y && is_finite x);
    cbn [eval]; [intros H; discriminate H |].
  intros [= <-]. exact Hv.
Qed.

End FiniteOrigin.

(** C9, as the code has it.  For every origin whose three components are
    finite, the z difference to the target that line 72 reads being finite
    as well: whenever GeodeticSolver completes without error, the latitude
    of the pose is a number between the doubles nearest to -pi/2 and pi/2
    (1.5707963267948966 in magnitude at most) and its longitude a number
    between the doubles nearest to -pi and pi (3.141592653589793 at most).
    The C library is asked for arctangents within these ranges, for
    squares of finite numbers that are not NaN, and for a square of E_E
    whose product with R_E_KM is finite. *)
Theorem finite_origin_pose_in_ranges
  (M : libm) (origin : EcefVector) (z_vec_km : float) (pose : GeodeticPose) :
  arctangents_in_range M ->
  squares_are_numbers M ->
  is_finite (mul R_E_KM (M (Pow E_E two))) = true ->
  finite_vector origin = true ->
  is_finite z_vec_km = true ->
  eval M (solve origin z_vec_km) = Returned pose ->
  is_nan (lat_rad pose) = false /\
  leb (fabs (lat_rad pose)) half_pi = true /\
  is_nan (lon_rad pose) = false /\
  leb (fabs (lon_rad pose)) pi = true.
Proof.
  intros Hrange Hsq Hpow Horigin Hzv H.
  unfold solve in H. cbv zeta in H.
  apply eval_bind_returned in H as (lon & Hlon & H).
  apply eval_bind_returned in H as (lat0 & Hlat0 & H).
  apply eval_bind_returned in H as (r & Hr & H).
  apply eval_bind_returned in H as (st & Hst & H).
  apply eval_bind_returned in H as (c & _ & H).
  apply eval_bind_returned in H as (h & _ & H).
  cbn [eval] in H. injection H as <-. cbn [lat_rad lon_rad].
  destruct (origin_components origin Horigin) as (Hx & Hy & Hz).
  pose proof (initial_latitude_invariant M Hsq origin Horigin
                z_vec_km lat0 r Hzv Hlat0 Hr) as Hinit.
  pose proof (polar_distance_number M Hsq origin Horigin r Hr) as Nr.
  assert (Hlat : leb (fabs (lat st)) half_pi = true).
  { apply (while_loop_invariant M
             (fun l => is_finite l = true /\
                       (is_inf r = true -> is_zero l = true))
             (fun l => leb (fabs l) half_pi = true)
             (z_km origin) r
             (fun s1 s2 =>
                loop_body_keeps_numbers M Hrange Hsq Hpow
                  (z_km origin) r s1 s2 Hz Nr)
             iteration_cap (loop_entry lat0) st);
      [exact Hinit | left; apply loop_test_entry | exact Hst]. }
  assert (Nlon : is_nan lon = false)
    by exact (math_atan2_number M Hrange _ _ _
                (finite_number _ Hy) (finite_number _ Hx) Hlon).
  split; [| split; [exact Hlat | split; [exact Nlon |]]].
  - pose proof (leb_not_nan _ _ Hlat) as Hn.
    rewrite fabs_nan in Hn. exact Hn.
  - exact (within_number _ _ (math_atan2_within M Hrange _ _ _ Hlon) Nlon).
Qed.

Lemma small_angle_squares_are_numbers : squares_are_numbers small_angle.
Proof.
  intros x Hx. change (is_nan (mul x x) = false).
  exact (mul_finite_number _ _ Hx Hx).
Defined.

Lemma finite_origin_pose_in_ranges_at_station :
  arctangents_in_range small_angle /\
  squares_are_numbers small_angle /\
  is_finite (mul R_E_KM (small_angle (Pow E_E two))) = true /\
  finite_vector station = true /\
  is_finite (z_km (difference north_of_station station)) = true /\
  exists pose,
    eval small_angle
      (solve station (z_km (difference north_of_station station)))
    = Returned pose /\
    is_nan (lat_rad pose) = false /\
    leb (fabs (lat_rad pose)) half_pi = true /\
    is_nan (lon_rad pose) = false /\
    leb (fabs (lon_rad pose)) pi = true.
Proof.
  assert (H1 : is_finite (mul R_E_KM (small_angle (Pow E_E two))) = true)
    by (vm_compute; reflexivity).
  assert (H2 : finite_vector station = true) by (vm_compute; reflexivity).
  assert (H3 : is_finite (z_km (difference north_of_station station)) = true)
    by (vm_compute; reflexivity).
  split; [exact small_angle_in_range |].
  split; [exact small_angle_squares_are_numbers |].
  split; [exact H1 |]. split; [exact H2 |]. split; [exact H3 |].
  eexists. split; [vm_compute; reflexivity |].
  apply (finite_origin_pose_in_ranges small_angle station
           (z_km (difference north_of_station station)) _
           small_angle_in_range small_angle_squares_are_numbers H1 H2 H3).
  vm_compute. reflexivity.
Defined.
